(** * Frame-Sync: the frame delay buffering engine of [src/content.js]

    A shallow embedding of the content script: the [BufferFrame] and
    [FrameSync] classes and the controller code around them
    ([updateSyncForVideos] and the storage listener), followed by the
    properties proved about them.

    Conventions of the embedding.
    - JavaScript numbers that hold timestamps, delays, counters and pixel
      dimensions are integers of [Z]; all timestamps and delays are in one
      common unit.  [Infinity] and [NaN] appear only where the script can
      produce them and are modelled by [option] at those places.
    - Objects live in a store: video elements and [FrameSync] objects are
      referred to by their position in the lists [videos] and [heap] of a
      [World].  The [BufferFrame] objects of a session are reachable only
      through its [buffer] array and are kept inline in that list.
    - Methods are computations of the monad [JS]: they thread the [World]
      and complete normally or by a thrown exception; what was assigned
      before a throw stays assigned. *)

From Stdlib Require Import ZArith List Bool Lia.
From stdpp Require Import base option list sorting.
Import ListNotations.
Local Open Scope Z_scope.

(** ** Data model *)

(** References into the store. *)
Abbreviation vref := nat.
Abbreviation ref := nat.

(** A [<video>] element of the document.  The first four fields belong to
    the host and change on their own; [picture] names the image the element
    currently shows.  [frameSyncObj] is the property the script grafts onto
    the element (absent = [None]).  The elements of the model are those of
    [document.querySelectorAll('video')]; each has a parent element. *)
Record Video := mkVideo {
  videoWidth : Z;
  videoHeight : Z;
  paused : bool;
  picture : Z;
  frameSyncObj : option ref
}.

(** class BufferFrame: [frame] is a canvas, given here by its two dimensions
    and by the image last drawn into it ([None] = blank); [ctx] is the 2d
    context of [frame] and carries no state of its own. *)
Record BufferFrame := mkBufferFrame {
  bf_video : vref;
  frame_width : Z;
  frame_height : Z;
  frame_image : option Z;
  captureTs : Z
}.

(** The overlay canvas of a session ([this.canvas], with [this.ctx] its
    context).  Its CSS box copies the computed style of the video and is not
    part of the model. *)
Record Canvas := mkCanvas {
  canvas_width : Z;
  canvas_height : Z;
  canvas_image : option Z
}.

(** class FrameSync.  [resizeObserver] is [None] for [null] and otherwise
    names the observed element; [canvas] is [None] for [undefined]/[null]. *)
Record FrameSync := mkFrameSync {
  video : vref;
  buffer : list BufferFrame;
  maxBuffer : Z;
  frameDelayMs : Z;
  active : bool;
  frameCount : Z;
  lastDrawnFrameIndex : Z;
  resizeObserver : option vref;
  canvas : option Canvas
}.

Inductive Exn := TypeError | InvalidStateError.

(** Lines written to the console. *)
Inductive Message :=
| Error_maxBuffer_at_least_2
| Warn_buffer_overflow
| Error_drawing_frame (e : Exn).

(** Callbacks handed to [requestAnimationFrame]. *)
Inductive Callback :=
| captureFrameFunc (this : ref)
| drawFrameFunc (this : ref).

Record World := mkWorld {
  videos : list Video;
  heap : list FrameSync;
  hidden : bool;
  console : list Message;
  animationFrames : list Callback;
  currentFrameDelay : Z;
  isPaused : bool
}.

(** ** Field assignment *)

Section Setters.

Definition set_frameSyncObj (o : option ref) (v : Video) : Video :=
  mkVideo (videoWidth v) (videoHeight v) (paused v) (picture v) o.

Definition set_buffer (b : list BufferFrame) (s : FrameSync) : FrameSync :=
  mkFrameSync (video s) b (maxBuffer s) (frameDelayMs s) (active s)
    (frameCount s) (lastDrawnFrameIndex s) (resizeObserver s) (canvas s).

Definition set_maxBuffer (n : Z) (s : FrameSync) : FrameSync :=
  mkFrameSync (video s) (buffer s) n (frameDelayMs s) (active s)
    (frameCount s) (lastDrawnFrameIndex s) (resizeObserver s) (canvas s).

Definition set_frameDelayMs (d : Z) (s : FrameSync) : FrameSync :=
  mkFrameSync (video s) (buffer s) (maxBuffer s) d (active s)
    (frameCount s) (lastDrawnFrameIndex s) (resizeObserver s) (canvas s).

Definition set_active (a : bool) (s : FrameSync) : FrameSync :=
  mkFrameSync (video s) (buffer s) (maxBuffer s) (frameDelayMs s) a
    (frameCount s) (lastDrawnFrameIndex s) (resizeObserver s) (canvas s).

Definition set_frameCount (n : Z) (s : FrameSync) : FrameSync :=
  mkFrameSync (video s) (buffer s) (maxBuffer s) (frameDelayMs s) (active s)
    n (lastDrawnFrameIndex s) (resizeObserver s) (canvas s).

Definition set_lastDrawnFrameIndex (i : Z) (s : FrameSync) : FrameSync :=
  mkFrameSync (video s) (buffer s) (maxBuffer s) (frameDelayMs s) (active s)
    (frameCount s) i (resizeObserver s) (canvas s).

Definition set_resizeObserver (o : option vref) (s : FrameSync) : FrameSync :=
  mkFrameSync (video s) (buffer s) (maxBuffer s) (frameDelayMs s) (active s)
    (frameCount s) (lastDrawnFrameIndex s) o (canvas s).

Definition set_canvas (c : option Canvas) (s : FrameSync) : FrameSync :=
  mkFrameSync (video s) (buffer s) (maxBuffer s) (frameDelayMs s) (active s)
    (frameCount s) (lastDrawnFrameIndex s) (resizeObserver s) c.

Definition set_videos (vs : list Video) (w : World) : World :=
  mkWorld vs (heap w) (hidden w) (console w) (animationFrames w)
    (currentFrameDelay w) (isPaused w).

Definition set_heap (h : list FrameSync) (w : World) : World :=
  mkWorld (videos w) h (hidden w) (console w) (animationFrames w)
    (currentFrameDelay w) (isPaused w).

Definition set_console (c : list Message) (w : World) : World :=
  mkWorld (videos w) (heap w) (hidden w) c (animationFrames w)
    (currentFrameDelay w) (isPaused w).

Definition set_animationFrames (q : list Callback) (w : World) : World :=
  mkWorld (videos w) (heap w) (hidden w) (console w) q
    (currentFrameDelay w) (isPaused w).

Definition set_currentFrameDelay (d : Z) (w : World) : World :=
  mkWorld (videos w) (heap w) (hidden w) (console w) (animationFrames w)
    d (isPaused w).

Definition set_isPaused (p : bool) (w : World) : World :=
  mkWorld (videos w) (heap w) (hidden w) (console w) (animationFrames w)
    (currentFrameDelay w) p.

End Setters.

(** ** The monad of script computations *)

Inductive Completion (A : Type) :=
| Normal (a : A)
| Thrown (e : Exn).
Arguments Normal {A} a.
Arguments Thrown {A} e.

Definition JS (A : Type) : Type := World -> Completion A * World.

Definition ret {A} (a : A) : JS A := fun w => (Normal a, w).

Definition bind {A B} (m : JS A) (k : A -> JS B) : JS B :=
  fun w => match m w with
           | (Normal a, w') => k a w'
           | (Thrown e, w') => (Thrown e, w')
           end.

Definition throw {A} (e : Exn) : JS A := fun w => (Thrown e, w).

(** [try { m } catch (e) { h e }] *)
Definition try_catch {A} (m : JS A) (h : Exn -> JS A) : JS A :=
  fun w => match m w with
           | (Thrown e, w') => h e w'
           | r => r
           end.

Notation "x <- m ; k" := (bind m (fun x => k))
  (at level 20, m at level 100, k at level 200, only parsing).
Notation "m ;; k" := (bind m (fun _ => k))
  (at level 100, k at level 200, only parsing, right associativity).

Definition get : JS World := fun w => (Normal w, w).
Definition modify (f : World -> World) : JS unit := fun w => (Normal tt, f w).

(** Reading through a reference.  A reference of the script always names an
    object; one that names nothing in the store reads as [undefined], and
    taking a property of it throws. *)
Definition deref {A} (o : option A) : JS A :=
  match o with Some a => ret a | None => throw TypeError end.

Definition readObj (this : ref) : JS FrameSync :=
  w <- get; deref (heap w !! this).

Definition readVideo (v : vref) : JS Video :=
  w <- get; deref (videos w !! v).

(** Assigning to properties of the object behind a reference. *)
Definition updObj (this : ref) (f : FrameSync -> FrameSync) : JS unit :=
  modify (fun w => set_heap (alter f this (heap w)) w).

Definition updVideo (v : vref) (f : Video -> Video) : JS unit :=
  modify (fun w => set_videos (alter f v (videos w)) w).

(** [new] of a FrameSync: the object gets the next free reference. *)
Definition alloc (s : FrameSync) : JS ref :=
  fun w => (Normal (length (heap w)), set_heap (heap w ++ [s]) w).

Definition console_log (m : Message) : JS unit :=
  modify (fun w => set_console (console w ++ [m]) w).

Definition requestAnimationFrame (cb : Callback) : JS unit :=
  modify (fun w => set_animationFrames (animationFrames w ++ [cb]) w).

(** [for (let i = 0; i < n; i++) body(i)], with [k] iterations left. *)
Fixpoint for_loop (k : nat) (i : nat) (body : nat -> JS unit) : JS unit :=
  match k with
  | O => ret tt
  | S k' => body i ;; for_loop k' (S i) body
  end.

(** [list.forEach(f)] *)
Fixpoint forEach {A} (l : list A) (f : A -> JS unit) : JS unit :=
  match l with
  | [] => ret tt
  | x :: l' => f x ;; forEach l' f
  end.

(** [a[i]] for a number [i] that may be [NaN] ([None]), negative or past the
    end: all of these read [undefined]. *)
Definition index {A} (a : list A) (i : option Z) : option A :=
  match i with
  | Some z => if z <? 0 then None else a !! Z.to_nat z
  | None => None
  end.

(** [a % b]: the remainder has the sign of [a]; [NaN] when [b] is 0. *)
Definition js_rem (a b : Z) : option Z :=
  if b =? 0 then None else Some (Z.rem a b).

(** ** class BufferFrame *)

(** [Resize()]: setting the dimensions of a canvas clears it. *)
Definition BufferFrame_Resize (v : Video) (f : BufferFrame) : BufferFrame :=
  mkBufferFrame (bf_video f) (videoWidth v) (videoHeight v) None (captureTs f).

(** [new BufferFrame(video)], where [v] is the state of that element. *)
Definition new_BufferFrame (video : vref) (v : Video) : BufferFrame :=
  BufferFrame_Resize v (mkBufferFrame video 300 150 None 0).

(** [CaptureFrame(now)], where [v] is the state of [this.video]. *)
Definition CaptureFrame (v : Video) (now : Z) (f : BufferFrame) : BufferFrame :=
  if (0 <? videoWidth v) && (0 <? videoHeight v)
  then mkBufferFrame (bf_video f) (frame_width f) (frame_height f)
         (Some (picture v)) now
  else f.

(** ** class FrameSync *)

(** The loop of [_findBestFrameToShow] over the slots from index [i] on;
    [smallestDiff] is [None] while it is [Infinity]. *)
Fixpoint findBest_loop (frames : list BufferFrame) (i : Z) (targetTs : Z)
    (bestFrameIndex : Z) (smallestDiff : option Z) : Z :=
  match frames with
  | [] => bestFrameIndex
  | frame :: rest =>
      if captureTs frame =? 0
      then findBest_loop rest (i + 1) targetTs bestFrameIndex smallestDiff
      else
        let diff := Z.abs (captureTs frame - targetTs) in
        if match smallestDiff with None => true | Some d => diff <? d end
        then findBest_loop rest (i + 1) targetTs i (Some diff)
        else findBest_loop rest (i + 1) targetTs bestFrameIndex smallestDiff
  end.

Definition _findBestFrameToShow (buffer : list BufferFrame) (targetTs : Z) : Z :=
  findBest_loop buffer 0 targetTs (-1) None.

Section Methods.

(** [SetMaxBuffer(maxBuffer)] *)
Definition SetMaxBuffer (this : ref) (maxBuffer : Z) : JS unit :=
  if maxBuffer <? 2 then console_log Error_maxBuffer_at_least_2
  else
    updObj this (set_maxBuffer maxBuffer) ;;
    updObj this (set_buffer []) ;;
    for_loop (Z.to_nat maxBuffer) 0 (fun _ =>
      s <- readObj this;
      v <- readVideo (video s);
      updObj this (set_buffer (buffer s ++ [new_BufferFrame (video s) v]))) ;;
    updObj this (set_frameCount 0) ;;
    updObj this (set_lastDrawnFrameIndex (-1)).

(** [new FrameSync(video, maxBuffer, frameDelayMs)]; the result is the
    object the [new] expression evaluates to. *)
Definition new_FrameSync (video : vref) (maxBuffer frameDelayMs : Z) : JS ref :=
  v <- readVideo video;
  match frameSyncObj v with
  | Some existing =>
      updObj existing (set_frameDelayMs frameDelayMs) ;;
      ret existing
  | None =>
      this <- alloc (mkFrameSync video [] 0 frameDelayMs false 0 (-1) None None);
      SetMaxBuffer this maxBuffer ;;
      updVideo video (set_frameSyncObj (Some this)) ;;
      ret this
  end.

(** [Resize] *)
Definition Resize (this : ref) : JS unit :=
  s <- readObj this;
  match canvas s with
  | None => ret tt
  | Some c =>
      v <- readVideo (video s);
      if (videoWidth v =? 0) || (videoHeight v =? 0) then ret tt
      else
        updObj this (set_canvas (Some (mkCanvas (videoWidth v) (videoHeight v) None))) ;;
        for_loop (Z.to_nat (maxBuffer s)) 0 (fun i =>
          s <- readObj this;
          f <- deref (buffer s !! i);
          v <- readVideo (bf_video f);
          updObj this (set_buffer (<[i := BufferFrame_Resize v f]> (buffer s))))
  end.

(** [_createCanvasOverlay()] *)
Definition _createCanvasOverlay (this : ref) : JS unit :=
  s <- readObj this;
  match canvas s with
  | Some _ => ret tt
  | None =>
      updObj this (set_canvas (Some (mkCanvas 300 150 None))) ;;
      Resize this ;;
      updObj this (set_resizeObserver (Some (video s)))
  end.

(** [_captureFrame(now, metadata)].  The second [this.buffer[nextFrameIndex]]
    names the slot the first one found, at position [nextFrameIndex]. *)
Definition _captureFrame (this : ref) (now : Z) : JS unit :=
  s <- readObj this;
  v <- readVideo (video s);
  w <- get;
  if negb (active s) || paused v || hidden w
  then requestAnimationFrame (captureFrameFunc this)
  else
    let nextFrameIndex := js_rem (frameCount s) (maxBuffer s) in
    slot <- deref (index (buffer s) nextFrameIndex);
    (if negb (captureTs slot =? 0) && (now - captureTs slot <? frameDelayMs s)
     then console_log Warn_buffer_overflow
     else ret tt) ;;
    sv <- readVideo (bf_video slot);
    updObj this (set_buffer
      (alter (CaptureFrame sv now) (Z.to_nat (default 0 nextFrameIndex)) (buffer s))) ;;
    updObj this (fun s => set_frameCount (frameCount s + 1) s) ;;
    requestAnimationFrame (captureFrameFunc this).

(** [this.ctx.drawImage(frameToDraw, 0, 0, this.canvas.width,
    this.canvas.height)]: drawing from a canvas without pixels is an
    InvalidStateError; a blank source leaves the target as it is. *)
Definition drawImage_overlay (this : ref) (frameToDraw : BufferFrame) : JS unit :=
  s <- readObj this;
  c <- deref (canvas s);
  if (frame_width frameToDraw =? 0) || (frame_height frameToDraw =? 0)
  then throw InvalidStateError
  else updObj this (set_canvas (Some
         (mkCanvas (canvas_width c) (canvas_height c)
            (match frame_image frameToDraw with
             | Some p => Some p
             | None => canvas_image c
             end)))).

(** [_drawFrame(now)] *)
Definition _drawFrame (this : ref) (now : Z) : JS unit :=
  s <- readObj this;
  v <- readVideo (video s);
  if negb (active s) || paused v
  then requestAnimationFrame (drawFrameFunc this)
  else
    let targetTs := now - frameDelayMs s in
    let bestFrameIndex := _findBestFrameToShow (buffer s) targetTs in
    (if negb (bestFrameIndex =? -1) && negb (bestFrameIndex =? lastDrawnFrameIndex s)
     then
       slot <- deref (index (buffer s) (Some bestFrameIndex));
       if (0 <? frame_width slot) && (0 <? frame_height slot)
       then try_catch
              (drawImage_overlay this slot ;;
               updObj this (set_lastDrawnFrameIndex bestFrameIndex))
              (fun e => console_log (Error_drawing_frame e))
       else ret tt
     else ret tt) ;;
    requestAnimationFrame (drawFrameFunc this).

(** [Activate()] *)
Definition Activate (this : ref) : JS unit :=
  s <- readObj this;
  if active s then ret tt
  else
    updObj this (set_active true) ;;
    _createCanvasOverlay this ;;
    requestAnimationFrame (captureFrameFunc this) ;;
    requestAnimationFrame (drawFrameFunc this).

(** [Deactivate()] *)
Definition Deactivate (this : ref) : JS unit :=
  updObj this (set_active false) ;;
  s <- readObj this;
  (match canvas s with
   | Some _ => updObj this (set_canvas None)
   | None => ret tt
   end) ;;
  (match resizeObserver s with
   | Some _ => updObj this (set_resizeObserver None)
   | None => ret tt
   end) ;;
  updVideo (video s) (set_frameSyncObj None).

End Methods.

(** ** Main logic *)

Section Controller.

(** The body of the [forEach] in [updateSyncForVideos]. *)
Definition syncVideo (video : vref) : JS unit :=
  w <- get;
  v <- readVideo video;
  if (0 <? currentFrameDelay w) && negb (isPaused w)
  then
    match frameSyncObj v with
    | None =>
        frameSync <- new_FrameSync video 60 (currentFrameDelay w);
        Activate frameSync
    | Some o => updObj o (set_frameDelayMs (currentFrameDelay w))
    end
  else
    match frameSyncObj v with
    | Some o => Deactivate o
    | None => ret tt
    end.

Definition updateSyncForVideos : JS unit :=
  w <- get;
  forEach (seq 0 (length (videos w))) syncVideo.

(** What a storage change event carries.  A present [frameDelay] holds
    [parseInt(newValue, 10)], [None] being [NaN]; a present [pauseDelay]
    holds the truth value of [newValue]. *)
Record Changes := mkChanges {
  frameDelay : option (option Z);
  pauseDelay : option bool
}.

Inductive Area := sync | local | managed.

(** [parseInt(x, 10) || 0] *)
Definition parseInt_or_0 (p : option Z) : Z := default 0 p.

(** The listener of [browser.storage.onChanged]. *)
Definition onChanged (changes : Changes) (area : Area) : JS unit :=
  match area with
  | sync =>
      (match frameDelay changes with
       | Some nv => modify (set_currentFrameDelay (parseInt_or_0 nv))
       | None => ret tt
       end) ;;
      (match pauseDelay changes with
       | Some nv => modify (set_isPaused (nv || false))
       | None => ret tt
       end) ;;
      updateSyncForVideos
  | _ => ret tt
  end.

End Controller.

(** [initialize], given what [browser.storage.sync.get] resolved to. *)
Definition initialize (frameDelay : option Z) (pauseDelay : bool) : JS unit :=
  modify (set_currentFrameDelay (parseInt_or_0 frameDelay)) ;;
  modify (set_isPaused (pauseDelay || false)) ;;
  updateSyncForVideos.

(** ** Running the script *)

(** The world a computation leaves behind, and how it completed. *)
Definition exec {A} (m : JS A) (w : World) : World := snd (m w).
Definition completion {A} (m : JS A) (w : World) : Completion A := fst (m w).

(** A page with the given videos, before the script has run. *)
Definition page (vs : list Video) : World := mkWorld vs [] false [] [] 0 false.

(** A playing 640x360 video without a session. *)
Definition playing_video : Video := mkVideo 640 360 false 1 None.

(** Capture cycles of one session at the given timestamps, in order. *)
Definition captures (this : ref) (timestamps : list Z) : JS unit :=
  forEach timestamps (_captureFrame this).

(** The timestamps held by the slots of session [this], slot by slot. *)
Definition slot_timestamps (this : ref) (w : World) : list Z :=
  match heap w !! this with
  | Some s => map captureTs (buffer s)
  | None => []
  end.

(** ** Vocabulary of the properties *)

(** A slot that was never written, and how far a slot is from the target. *)
Definition empty_slot (f : BufferFrame) : Prop := captureTs f = 0.
Definition distance (targetTs : Z) (f : BufferFrame) : Z :=
  Z.abs (captureTs f - targetTs).

(** [r] is the answer the selection owes for the slots [l]: "none" when all
    are empty, else the index of a written slot nearest to the target and
    lowest among the nearest. *)
Definition selects (targetTs : Z) (l : list BufferFrame) (r : Z) : Prop :=
  (r = -1 /\ Forall empty_slot l) \/
  (0 <= r /\
   exists f, l !! Z.to_nat r = Some f /\ captureTs f <> 0 /\
     forall (j : nat) g, l !! j = Some g -> captureTs g <> 0 ->
       distance targetTs f <= distance targetTs g /\
       (distance targetTs g = distance targetTs f -> r <= Z.of_nat j)).

(** The state of the selection loop after the slots [pre] were scanned. *)
Definition scanned (targetTs : Z) (pre : list BufferFrame) (best : Z)
    (sd : option Z) : Prop :=
  match sd with
  | None => best = -1 /\ Forall empty_slot pre
  | Some d =>
      0 <= best /\
      exists f, pre !! Z.to_nat best = Some f /\ captureTs f <> 0 /\
        d = distance targetTs f /\
        forall (j : nat) g, pre !! j = Some g -> captureTs g <> 0 ->
          d <= distance targetTs g /\
          (distance targetTs g = d -> best <= Z.of_nat j)
  end.

(** The slot the next capture of a session writes, when there is one. *)
Definition nextFrameIndex (s : FrameSync) : option Z :=
  js_rem (frameCount s) (maxBuffer s).

(** The overflow test of a capture cycle on the slot it is about to write. *)
Definition overflows (s : FrameSync) (now : Z) (slot : BufferFrame) : bool :=
  negb (captureTs slot =? 0) && (now - captureTs slot <? frameDelayMs s).

(** The session a capture cycle at [now] leaves behind when it gets past the
    gate and finds its slot; [sv] is the state of the slot's video. *)
Definition captured (sv : Video) (now : Z) (s : FrameSync) : FrameSync :=
  set_frameCount (frameCount s + 1)
    (set_buffer
       (alter (CaptureFrame sv now) (Z.to_nat (default 0 (nextFrameIndex s)))
          (buffer s)) s).

(** A session whose ring is in order and whose capture cycles get past the
    gate in world [w]: capacity [C], as many slots, every slot bound to the
    session's video [v], which plays, has a picture size and is visible. *)
Record capturing (w : World) (this : ref) (v : Video) (C : Z) (s : FrameSync) : Prop := {
  cap_heap : heap w !! this = Some s;
  cap_video : videos w !! video s = Some v;
  cap_active : active s = true;
  cap_playing : paused v = false;
  cap_visible : hidden w = false;
  cap_width : 0 < videoWidth v;
  cap_height : 0 < videoHeight v;
  cap_capacity : maxBuffer s = C;
  cap_length : Z.of_nat (length (buffer s)) = C;
  cap_count : 0 <= frameCount s;
  cap_slots : Forall (fun f => bf_video f = video s) (buffer s)
}.

(** The object behind a reference (a blank one if there is none). *)
Definition session_of (w : World) (this : ref) : FrameSync :=
  default (mkFrameSync 0%nat [] 0 0 false 0 (-1) None None) (heap w !! this).

(** The session [Deactivate()] leaves behind. *)
Definition deactivated (s : FrameSync) : FrameSync :=
  mkFrameSync (video s) (buffer s) (maxBuffer s) (frameDelayMs s) false
    (frameCount s) (lastDrawnFrameIndex s) None None.

(** A session stored under [this] whose ring is in order: bound to the
    video [v] of the page, as many slots as its capacity says, every slot
    bound to the same video. *)
Record session_at (w : World) (this : ref) (v : Video) (s : FrameSync) : Prop := {
  at_heap : heap w !! this = Some s;
  at_video : videos w !! video s = Some v;
  at_length : Z.of_nat (length (buffer s)) = maxBuffer s;
  at_slots : Forall (fun f => bf_video f = video s) (buffer s)
}.

(** The session [Resize] leaves behind. *)
Definition resized (v : Video) (s : FrameSync) : FrameSync :=
  match canvas s with
  | None => s
  | Some _ =>
      if (videoWidth v =? 0) || (videoHeight v =? 0) then s
      else set_buffer (map (BufferFrame_Resize v) (buffer s))
             (set_canvas (Some (mkCanvas (videoWidth v) (videoHeight v) None)) s)
  end.

(** The session [Activate()] leaves behind when it was inactive and without
    an overlay. *)
Definition activated (v : Video) (s : FrameSync) : FrameSync :=
  set_resizeObserver (Some (video s))
    (resized v (set_canvas (Some (mkCanvas 300 150 None)) (set_active true s))).

(** The object the constructor builds for a video [v] (stored under
    [video]) that carries no session, for a capacity of at least 2. *)
Definition constructed (video : vref) (v : Video) (maxBuffer frameDelayMs : Z)
    : FrameSync :=
  mkFrameSync video (replicate (Z.to_nat maxBuffer) (new_BufferFrame video v))
    maxBuffer frameDelayMs false 0 (-1) None None.

(** Whether a playback cycle at [now] goes on to render, and which slot:
    the selected index is neither "none" nor the one drawn last, and the
    slot has pixels. *)
Definition render_candidate (now : Z) (s : FrameSync) : option (Z * BufferFrame) :=
  let bestFrameIndex := _findBestFrameToShow (buffer s) (now - frameDelayMs s) in
  if negb (bestFrameIndex =? -1) && negb (bestFrameIndex =? lastDrawnFrameIndex s)
  then match index (buffer s) (Some bestFrameIndex) with
       | Some slot =>
           if (0 <? frame_width slot) && (0 <? frame_height slot)
           then Some (bestFrameIndex, slot)
           else None
       | None => None
       end
  else None.

(** The session a playback cycle at [now] leaves behind when it gets past
    the gate. *)
Definition drawn (now : Z) (s : FrameSync) : FrameSync :=
  match render_candidate now s, canvas s with
  | Some (bestFrameIndex, slot), Some c =>
      set_lastDrawnFrameIndex bestFrameIndex
        (set_canvas (Some (mkCanvas (canvas_width c) (canvas_height c)
           (match frame_image slot with
            | Some p => Some p
            | None => canvas_image c
            end))) s)
  | _, _ => s
  end.

(** What that cycle writes to the console: the caught render failure. *)
Definition draw_errors (now : Z) (s : FrameSync) : list Message :=
  match render_candidate now s, canvas s with
  | Some _, None => [Error_drawing_frame TypeError]
  | _, _ => []
  end.

(** The configuration a change event leaves in force. *)
Definition delay_after (changes : Changes) (w : World) : Z :=
  match frameDelay changes with
  | Some nv => parseInt_or_0 nv
  | None => currentFrameDelay w
  end.

Definition paused_after (changes : Changes) (w : World) : bool :=
  match pauseDelay changes with
  | Some nv => nv || false
  | None => isPaused w
  end.

(** ** Scenarios *)

(** One playing video; a session of the given capacity and delay is
    constructed for it and activated, then captures at the given
    timestamps. *)
Definition session_run (capacity delayMs : Z) (timestamps : list Z) : JS ref :=
  this <- new_FrameSync 0%nat capacity delayMs;
  Activate this ;;
  captures this timestamps ;;
  ret this.

(** Capacity 4, captures at 0, 30, 60, 90 and 120, delay 100. *)
Definition selection_scenario : World :=
  Eval vm_compute in
  exec (session_run 4 100 [0; 30; 60; 90; 120]) (page [playing_video]).

(** One playing video with an activated session of capacity 4 and delay
    100 that has not captured yet. *)
Definition activated_world : World :=
  Eval vm_compute in exec (session_run 4 100 []) (page [playing_video]).

Definition activated_session : FrameSync :=
  Eval vm_compute in session_of activated_world 0%nat.

Definition activated_video : Video :=
  Eval vm_compute in default playing_video (videos activated_world !! 0%nat).

(** Capacity 2, delay 10: the world after the capture at 0, and after the
    captures at 0 and 5. *)
Definition overflow_scenario_first : World :=
  Eval vm_compute in exec (session_run 2 10 [0]) (page [playing_video]).

Definition overflow_scenario : World :=
  Eval vm_compute in exec (_captureFrame 0%nat 5) overflow_scenario_first.

(** An activated session (capacity 4) on a playing video that reports no
    picture size yet. *)
Definition unsized_video : Video := mkVideo 0 0 false 1 None.

Definition unsized_world : World :=
  Eval vm_compute in exec (session_run 4 100 []) (page [unsized_video]).

(** The selection scenario after its playback cycle at 150. *)
Definition playback_scenario : World :=
  Eval vm_compute in exec (_drawFrame 0%nat 150) selection_scenario.

Definition playback_session : FrameSync :=
  Eval vm_compute in session_of playback_scenario 0%nat.

Definition playback_video : Video :=
  Eval vm_compute in default playing_video (videos playback_scenario !! 0%nat).


(** ** The observer of added nodes *)

(** A node of [mutation.addedNodes]: a [<video>] element, another element
    with so many videos below it ([node.querySelectorAll('video')]), or a
    node without [querySelectorAll] (text, comment). *)
Inductive Node :=
| video_node
| element_node (videos_below : nat)
| other_node.

(** The callback of the [MutationObserver]; each mutation record is given
    by its [addedNodes]. *)
Definition onMutations (mutations : list (list Node)) : JS unit :=
  forEach mutations (fun addedNodes =>
    forEach addedNodes (fun node =>
      match node with
      | video_node => updateSyncForVideos
      | element_node videos_below =>
          forEach (seq 0 videos_below) (fun _ => updateSyncForVideos)
      | other_node => ret tt
      end)).

(** ** Calls on a session and changes of its surroundings *)

Definition set_hidden (h : bool) (w : World) : World :=
  mkWorld (videos w) (heap w) h (console w) (animationFrames w)
    (currentFrameDelay w) (isPaused w).





(** A capture or playback cycle of a session, as the scheduler runs them. *)
Definition cycle (cb : Callback) (now : Z) : JS unit :=
  match cb with
  | captureFrameFunc this => _captureFrame this now
  | drawFrameFunc this => _drawFrame this now
  end.

(** ** The registry of sessions *)

(** The test of [updateSyncForVideos]: a positive delay and no pause. *)
Definition delay_on (w : World) : bool :=
  (0 <? currentFrameDelay w) && negb (isPaused w).

(** The links between videos and sessions are in order: a video's
    [frameSyncObj] names an active session bound to that video, and every
    active session is the one its video names. *)
Definition registry_ok (w : World) : Prop :=
  (forall (i : vref) v (r : ref),
     videos w !! i = Some v -> frameSyncObj v = Some r ->
     exists s, heap w !! r = Some s /\ video s = i /\ active s = true) /\
  (forall (r : ref) s,
     heap w !! r = Some s -> active s = true ->
     exists v, videos w !! video s = Some v /\ frameSyncObj v = Some r).

(** Video [i] is as [updateSyncForVideos] leaves it: with the delay on it
    carries a session that has the configured delay, with the delay off it
    carries none. *)
Definition settled_at (w : World) (i : vref) : Prop :=
  forall v, videos w !! i = Some v ->
    if delay_on w
    then exists r s, frameSyncObj v = Some r /\ heap w !! r = Some s /\
           frameDelayMs s = currentFrameDelay w
    else frameSyncObj v = None.

(** A ring as the controller constructs it: 60 empty slots. *)
Definition default_ring (s : FrameSync) : Prop :=
  maxBuffer s = 60 /\ length (buffer s) = 60%nat /\ frameCount s = 0 /\
  lastDrawnFrameIndex s = -1 /\ Forall (fun f => captureTs f = 0) (buffer s).

(** How often a batch of mutation records calls [updateSyncForVideos]. *)
Definition sync_calls (mutations : list (list Node)) : nat :=
  sum_list (map (fun addedNodes =>
    sum_list (map (fun node =>
      match node with
      | video_node => 1%nat
      | element_node videos_below => videos_below
      | other_node => 0%nat
      end) addedNodes)) mutations).

(** What the page goes through: storage changes, batches of added nodes,
    and new videos (without a session) appearing in the document. *)
Inductive Event :=
| storage_changed (changes : Changes) (area : Area)
| nodes_added (mutations : list (list Node))
| video_appears (width height : Z) (paused : bool) (picture : Z).

Definition handle (e : Event) : JS unit :=
  match e with
  | storage_changed changes area => onChanged changes area
  | nodes_added mutations => onMutations mutations
  | video_appears width height paused picture =>
      modify (fun w =>
        set_videos (videos w ++ [mkVideo width height paused picture None]) w)
  end.

(** Two videos, one of them without a picture size yet; the script has
    initialized with delay 100. *)
Definition synced_page : World :=
  Eval vm_compute in
  exec (initialize (Some 100) false) (page [playing_video; unsized_video]).

(** [s'] has the ring of [s]: same video, capacity, slots, count and last
    drawn index. *)
Definition same_ring (s s' : FrameSync) : Prop :=
  video s' = video s /\ maxBuffer s' = maxBuffer s /\ buffer s' = buffer s /\
  frameCount s' = frameCount s /\
  lastDrawnFrameIndex s' = lastDrawnFrameIndex s.

(** * Properties *)

(** ** Frame selection *)

Section Selection.

Variable targetTs : Z.

Local Abbreviation distance := (distance targetTs).
Local Abbreviation selects := (selects targetTs).
Local Abbreviation scanned := (scanned targetTs).

Lemma scanned_selects pre best sd :
  scanned pre best sd -> selects pre best.
Proof.
  destruct sd as [d|]; simpl.
  - intros (Hb & f & Hf & Hne & -> & Hmin). right. split; [done|].
    exists f. repeat split; try done; apply (Hmin j g); done.
  - intros [-> Hall]. left. done.
Qed.

Lemma scanned_skip pre best sd frame :
  captureTs frame = 0 -> scanned pre best sd -> scanned (pre ++ [frame]) best sd.
Proof.
  intros H0. destruct sd as [d|]; simpl.
  - intros (Hb & f & Hf & Hne & Hd & Hmin). split; [done|].
    exists f. split; [by apply lookup_app_l_Some|]. do 2 (split; [done|]).
    intros j g Hj Hg. apply lookup_app_Some in Hj as [Hj|[_ Hj]].
    + by apply Hmin.
    + apply list_lookup_singleton_Some in Hj as [_ <-]. done.
  - intros [-> Hall]. split; [done|]. apply Forall_app. split; [done|].
    by constructor.
Qed.

Lemma scanned_take pre best sd frame :
  captureTs frame <> 0 ->
  match sd with None => True | Some d => distance frame < d end ->
  scanned pre best sd ->
  scanned (pre ++ [frame]) (Z.of_nat (length pre)) (Some (distance frame)).
Proof.
  intros Hne Hlt Hs. simpl. split; [lia|].
  exists frame. rewrite Nat2Z.id. split.
  { rewrite lookup_app_r by lia. by rewrite Nat.sub_diag. }
  do 2 (split; [done|]).
  intros j g Hj Hg. apply lookup_app_Some in Hj as [Hj|[Hge Hj]].
  - destruct sd as [d|]; simpl in Hs.
    + destruct Hs as (_ & f & _ & _ & _ & Hmin).
      destruct (Hmin j g Hj Hg) as [Hle _]. lia.
    + destruct Hs as [_ Hall].
      rewrite Forall_lookup in Hall. by specialize (Hall j g Hj).
  - apply list_lookup_singleton_Some in Hj as [Hj <-]. lia.
Qed.

Lemma scanned_keep pre best d frame :
  captureTs frame <> 0 -> d <= distance frame ->
  scanned pre best (Some d) -> scanned (pre ++ [frame]) best (Some d).
Proof.
  intros Hne Hle (Hb & f & Hf & Hfne & Hd & Hmin). split; [done|].
  exists f. split; [by apply lookup_app_l_Some|]. do 2 (split; [done|]).
  intros j g Hj Hg. apply lookup_app_Some in Hj as [Hj|[Hge Hj]].
  - by apply Hmin.
  - apply list_lookup_singleton_Some in Hj as [Hj <-]. split; [done|].
    intros _. apply lookup_lt_Some in Hf. lia.
Qed.

Lemma findBest_loop_selects frames : forall pre best sd,
  scanned pre best sd ->
  selects (pre ++ frames)
    (findBest_loop frames (Z.of_nat (length pre)) targetTs best sd).
Proof.
  induction frames as [|frame rest IH]; intros pre best sd Hs; simpl.
  - rewrite app_nil_r. by eapply scanned_selects.
  - replace (Z.of_nat (length pre) + 1) with (Z.of_nat (length (pre ++ [frame])))
      by (rewrite length_app; simpl; lia).
    replace (pre ++ frame :: rest) with ((pre ++ [frame]) ++ rest)
      by (by rewrite <- app_assoc).
    destruct (Z.eqb_spec (captureTs frame) 0) as [H0|Hne].
    + apply IH. by apply scanned_skip.
    + fold (distance frame). destruct sd as [d|].
      * destruct (Z.ltb_spec (distance frame) d) as [Hlt|Hge].
        -- apply IH. by apply (scanned_take pre best (Some d)).
        -- apply IH. by apply scanned_keep.
      * apply IH. by apply (scanned_take pre best None).
Qed.

Lemma _findBestFrameToShow_selects buffer :
  selects buffer (_findBestFrameToShow buffer targetTs).
Proof.
  apply (findBest_loop_selects buffer [] (-1) None). simpl. split; [done|].
  constructor.
Qed.

End Selection.


(** ** The store *)

Section Store.

Lemma set_heap_id w : set_heap (heap w) w = w.
Proof. by destruct w. Qed.

Lemma set_buffer_id s : set_buffer (buffer s) s = s.
Proof. by destruct s. Qed.

Lemma alter_Some {A} (f : A -> A) (l : list A) i x :
  l !! i = Some x -> alter f i l = <[i := f x]> l.
Proof.
  revert i. induction l as [|y l IH]; intros [|i] H; simplify_eq/=; try done.
  f_equal. by apply IH.
Qed.

Lemma alter_None {A} (f : A -> A) (l : list A) i :
  l !! i = None -> alter f i l = l.
Proof.
  revert i. induction l as [|y l IH]; intros [|i] H; simplify_eq/=; try done.
  f_equal. by apply IH.
Qed.

Lemma readObj_Some w this s :
  heap w !! this = Some s -> readObj this w = (Normal s, w).
Proof. intros H. unfold readObj, bind, get, deref. by rewrite H. Qed.

Lemma readVideo_Some w i v :
  videos w !! i = Some v -> readVideo i w = (Normal v, w).
Proof. intros H. unfold readVideo, bind, get, deref. by rewrite H. Qed.

Lemma updObj_Some w this s f :
  heap w !! this = Some s ->
  updObj this f w = (Normal tt, set_heap (<[this := f s]> (heap w)) w).
Proof. intros H. unfold updObj, modify. by rewrite (alter_Some _ _ _ _ H). Qed.

Lemma heap_insert_lookup w this s s' :
  heap w !! this = Some s ->
  heap (set_heap (<[this := s']> (heap w)) w) !! this = Some s'.
Proof.
  intros H. simpl. apply list_lookup_insert_eq. by eapply lookup_lt_Some.
Qed.

Lemma bind_Normal {A B} (m : JS A) (k : A -> JS B) w a w' :
  m w = (Normal a, w') -> bind m k w = k a w'.
Proof. intros H. unfold bind. by rewrite H. Qed.

Lemma bind_Thrown {A B} (m : JS A) (k : A -> JS B) w e w' :
  m w = (Thrown e, w') -> bind m k w = (Thrown e, w').
Proof. intros H. unfold bind. by rewrite H. Qed.

End Store.

(** ** SetMaxBuffer *)

Section Capacity.

Variable this : ref.

(** The allocation loop of [SetMaxBuffer] appends one fresh slot per turn. *)
Lemma SetMaxBuffer_loop k : forall i w s v,
  heap w !! this = Some s -> videos w !! video s = Some v ->
  for_loop k i (fun _ =>
      s <- readObj this;
      v <- readVideo (video s);
      updObj this (set_buffer (buffer s ++ [new_BufferFrame (video s) v]))) w
  = (Normal tt,
     set_heap (<[this := set_buffer
        (buffer s ++ replicate k (new_BufferFrame (video s) v)) s]> (heap w)) w).
Proof.
  induction k as [|k IH]; intros i w s v Hs Hv; simpl.
  - rewrite app_nil_r, set_buffer_id, list_insert_id, set_heap_id; done.
  - erewrite bind_Normal; last first.
    { erewrite bind_Normal by by apply readObj_Some.
      erewrite bind_Normal by by apply readVideo_Some.
      by apply updObj_Some. }
    erewrite IH; [|by eapply heap_insert_lookup|done].
    simpl. rewrite list_insert_insert_eq, <- app_assoc. done.
Qed.

Lemma SetMaxBuffer_accepts w s v n :
  heap w !! this = Some s -> videos w !! video s = Some v -> 2 <= n ->
  SetMaxBuffer this n w =
    (Normal tt,
     set_heap (<[this := mkFrameSync (video s)
        (replicate (Z.to_nat n) (new_BufferFrame (video s) v)) n
        (frameDelayMs s) (active s) 0 (-1) (resizeObserver s) (canvas s)]>
        (heap w)) w).
Proof.
  intros Hs Hv Hn. unfold SetMaxBuffer.
  destruct (Z.ltb_spec n 2) as [?|_]; [lia|].
  erewrite bind_Normal by by apply updObj_Some.
  erewrite bind_Normal by (apply updObj_Some; by eapply heap_insert_lookup).
  erewrite bind_Normal; last first.
  { apply SetMaxBuffer_loop with (v := v);
      [simpl; apply list_lookup_insert_eq|done].
    rewrite length_insert. by eapply lookup_lt_Some. }
  assert (this < length (heap w))%nat as Hlt by by eapply lookup_lt_Some.
  erewrite bind_Normal; last first.
  { apply updObj_Some. simpl. apply list_lookup_insert_eq.
    by rewrite !length_insert. }
  erewrite updObj_Some; last first.
  { simpl. apply list_lookup_insert_eq. by rewrite !length_insert. }
  simpl. by rewrite !list_insert_insert_eq.
Qed.

Lemma SetMaxBuffer_rejects w n :
  n < 2 ->
  SetMaxBuffer this n w =
    (Normal tt, set_console (console w ++ [Error_maxBuffer_at_least_2]) w).
Proof.
  intros Hn. unfold SetMaxBuffer.
  destruct (Z.ltb_spec n 2) as [_|?]; [done|lia].
Qed.

End Capacity.

(** C5.  [SetMaxBuffer(n)] never throws.  With n < 2 it writes the error to
    the console and changes nothing else in the world: the session keeps
    its capacity, buffer, [frameCount] and [lastDrawnFrameIndex].  With
    n >= 2 it leaves the session with capacity n, a buffer of n slots that
    all have [captureTs] = 0, [frameCount] = 0 and
    [lastDrawnFrameIndex] = -1. *)
Theorem SetMaxBuffer_rejects_below_2_else_reinitializes
    (w : World) (this : ref) (s : FrameSync) (v : Video) (n : Z) :
  heap w !! this = Some s ->
  videos w !! video s = Some v ->
  completion (SetMaxBuffer this n) w = Normal tt /\
  (n < 2 ->
     exec (SetMaxBuffer this n) w
       = set_console (console w ++ [Error_maxBuffer_at_least_2]) w /\
     heap (exec (SetMaxBuffer this n) w) !! this = Some s) /\
  (2 <= n ->
     console (exec (SetMaxBuffer this n) w) = console w /\
     exists s', heap (exec (SetMaxBuffer this n) w) !! this = Some s' /\
       maxBuffer s' = n /\
       Z.of_nat (length (buffer s')) = n /\
       Forall (fun f => captureTs f = 0) (buffer s') /\
       frameCount s' = 0 /\
       lastDrawnFrameIndex s' = -1).
Proof.
  intros Hs Hv. unfold completion, exec.
  destruct (Z.lt_ge_cases n 2) as [Hn|Hn].
  - rewrite (SetMaxBuffer_rejects this w n Hn). simpl.
    split; [done|]. split; [done|lia].
  - rewrite (SetMaxBuffer_accepts this w s v n Hs Hv Hn). simpl.
    split; [done|]. split; [lia|]. intros _. split; [done|].
    eexists. split.
    { apply list_lookup_insert_eq. by eapply lookup_lt_Some. }
    simpl. rewrite length_replicate. repeat split; try done; try lia.
    apply Forall_replicate. done.
Qed.

Lemma SetMaxBuffer_rejects_below_2_else_reinitializes_witness :
  exists s v,
    heap selection_scenario !! 0%nat = Some s /\
    videos selection_scenario !! video s = Some v /\
    (heap (exec (SetMaxBuffer 0%nat 1) selection_scenario) !! 0%nat = Some s) /\
    (exists s', heap (exec (SetMaxBuffer 0%nat 3) selection_scenario) !! 0%nat = Some s' /\
       maxBuffer s' = 3 /\ frameCount s' = 0).
Proof.
  eexists _, _. split; [reflexivity|]. split; [reflexivity|].
  split.
  - refine (proj2 (proj1 (proj2
      (SetMaxBuffer_rejects_below_2_else_reinitializes
         selection_scenario 0%nat _ _ 1 eq_refl eq_refl)) _)).
    lia.
  - destruct (proj2 (proj2
      (SetMaxBuffer_rejects_below_2_else_reinitializes
         selection_scenario 0%nat _ _ 3 eq_refl eq_refl)))
      as (_ & s' & H1 & H2 & _ & _ & H3 & _); [lia|].
    exists s'. done.
Defined.

(** ** BufferFrame *)

Section Frames.

Lemma CaptureFrame_video v now f : bf_video (CaptureFrame v now f) = bf_video f.
Proof. unfold CaptureFrame. by destruct (_ && _). Qed.

Lemma CaptureFrame_sized v now f :
  0 < videoWidth v -> 0 < videoHeight v ->
  captureTs (CaptureFrame v now f) = now.
Proof.
  intros Hw Hh. unfold CaptureFrame.
  destruct (Z.ltb_spec 0 (videoWidth v)); [|lia].
  destruct (Z.ltb_spec 0 (videoHeight v)); [|lia]. done.
Qed.

Lemma CaptureFrame_unsized v now f :
  videoWidth v = 0 \/ videoHeight v = 0 -> CaptureFrame v now f = f.
Proof.
  intros H. unfold CaptureFrame.
  destruct (Z.ltb_spec 0 (videoWidth v)); [|done].
  destruct (Z.ltb_spec 0 (videoHeight v)); [lia|done].
Qed.

Lemma CaptureFrame_ts v now f :
  captureTs (CaptureFrame v now f) = now \/
  captureTs (CaptureFrame v now f) = captureTs f.
Proof. unfold CaptureFrame. destruct (_ && _); auto. Qed.

End Frames.

(** ** The capture cycle *)

Section Capture.

Variable this : ref.

(** A capture cycle that gets past the gate and finds its slot. *)
Lemma _captureFrame_captures w s v now slot sv :
  heap w !! this = Some s -> videos w !! video s = Some v ->
  active s = true -> paused v = false -> hidden w = false ->
  index (buffer s) (nextFrameIndex s) = Some slot ->
  videos w !! bf_video slot = Some sv ->
  _captureFrame this now w =
    (Normal tt,
     mkWorld (videos w) (<[this := captured sv now s]> (heap w)) (hidden w)
       (console w ++ (if overflows s now slot then [Warn_buffer_overflow] else []))
       (animationFrames w ++ [captureFrameFunc this])
       (currentFrameDelay w) (isPaused w)).
Proof.
  intros Hs Hv Ha Hp Hh Hslot Hsv. unfold _captureFrame.
  erewrite bind_Normal by by apply readObj_Some.
  erewrite bind_Normal by by apply readVideo_Some.
  erewrite bind_Normal by reflexivity.
  assert (negb (active s) || paused v || hidden w = false) as ->
    by (by rewrite Ha, Hp, Hh).
  cbv iota. unfold nextFrameIndex in Hslot. rewrite Hslot.
  erewrite bind_Normal by reflexivity.
  assert (this < length (heap w))%nat as Hlt by by eapply lookup_lt_Some.
  fold (overflows s now slot).
  destruct (overflows s now slot).
  - erewrite bind_Normal by reflexivity.
    erewrite bind_Normal by (apply readVideo_Some; exact Hsv).
    erewrite bind_Normal by (apply updObj_Some; exact Hs).
    erewrite bind_Normal; last first.
    { apply updObj_Some. simpl. by apply list_lookup_insert_eq. }
    unfold requestAnimationFrame, modify. simpl.
    rewrite list_insert_insert_eq. done.
  - erewrite bind_Normal by reflexivity.
    erewrite bind_Normal by (apply readVideo_Some; exact Hsv).
    erewrite bind_Normal by (apply updObj_Some; exact Hs).
    erewrite bind_Normal; last first.
    { apply updObj_Some. simpl. by apply list_lookup_insert_eq. }
    unfold requestAnimationFrame, modify. simpl.
    rewrite list_insert_insert_eq, app_nil_r. done.
Qed.

(** A capture cycle stopped at the gate only reschedules itself. *)
Lemma _captureFrame_gated w s v now :
  heap w !! this = Some s -> videos w !! video s = Some v ->
  negb (active s) || paused v || hidden w = true ->
  _captureFrame this now w =
    (Normal tt,
     set_animationFrames (animationFrames w ++ [captureFrameFunc this]) w).
Proof.
  intros Hs Hv Hg. unfold _captureFrame.
  erewrite bind_Normal by by apply readObj_Some.
  erewrite bind_Normal by by apply readVideo_Some.
  erewrite bind_Normal by reflexivity.
  rewrite Hg. done.
Qed.

End Capture.

(** ** Sequences of captures *)

Section Ring.

Variable this : ref.

Lemma bind_ret_tt (m : JS unit) w : (m ;; ret tt) w = m w.
Proof. unfold bind, ret. by destruct (m w) as [[[]|e] w']. Qed.

Lemma forEach_app {A} (f : A -> JS unit) l1 l2 : forall w,
  forEach (l1 ++ l2) f w = (forEach l1 f ;; forEach l2 f) w.
Proof.
  induction l1 as [|x l1 IH]; intros w; simpl; [done|].
  unfold bind in *. destruct (f x w) as [[a|e] w']; [apply IH|done].
Qed.

Lemma captures_snoc ts t w :
  captures this (ts ++ [t]) w = (captures this ts ;; _captureFrame this t) w.
Proof.
  unfold captures. rewrite forEach_app. unfold bind at 1 2.
  destruct (forEach ts (_captureFrame this) w) as [[a|e] w']; [|done].
  apply (bind_ret_tt (_captureFrame this t)).
Qed.

(** In a session with capacity [C] > 0 the next slot is [frameCount mod C]
    and exists. *)
Lemma capturing_slot w v C s :
  capturing w this v C s -> 0 < C ->
  nextFrameIndex s = Some (frameCount s mod C) /\
  exists slot, buffer s !! Z.to_nat (frameCount s mod C) = Some slot /\
    index (buffer s) (nextFrameIndex s) = Some slot /\
    videos w !! bf_video slot = Some v.
Proof.
  intros [] HC.
  assert (nextFrameIndex s = Some (frameCount s mod C)) as Hn.
  { unfold nextFrameIndex, js_rem. rewrite cap_capacity0.
    destruct (Z.eqb_spec C 0); [lia|]. by rewrite Z.rem_mod_nonneg by lia. }
  split; [done|].
  pose proof (Z.mod_pos_bound (frameCount s) C HC) as Hb.
  destruct (lookup_lt_is_Some_2 (buffer s) (Z.to_nat (frameCount s mod C)))
    as [slot Hslot]; [lia|].
  exists slot. split; [done|]. split.
  - rewrite Hn. simpl. destruct (Z.ltb_spec (frameCount s mod C) 0); [lia|done].
  - rewrite Forall_lookup in cap_slots0. by rewrite (cap_slots0 _ _ Hslot).
Qed.

(** One capture cycle of such a session: what it writes and that the
    session stays in order. *)
Lemma capturing_step w v C s t :
  capturing w this v C s -> 0 < C ->
  completion (_captureFrame this t) w = Normal tt /\
  heap (exec (_captureFrame this t) w) !! this = Some (captured v t s) /\
  capturing (exec (_captureFrame this t) w) this v C (captured v t s).
Proof.
  intros Hc HC. destruct (capturing_slot w v C s Hc HC) as (Hn & slot & Hl & Hi & Hsv).
  destruct Hc. unfold completion, exec.
  erewrite _captureFrame_captures by done. simpl.
  assert (this < length (heap w))%nat as Hlt by by eapply lookup_lt_Some.
  split; [done|]. split; [by apply list_lookup_insert_eq|].
  constructor; simpl; try done.
  - by apply list_lookup_insert_eq.
  - by rewrite length_alter.
  - lia.
  - rewrite Forall_lookup in cap_slots0 |- *. intros i f Hf.
    rewrite list_lookup_alter in Hf. case_decide as Hi'.
    + destruct (buffer s !! _) as [g|] eqn:Hg in Hf; simpl in Hf; [|done].
      injection Hf as <-. rewrite CaptureFrame_video. by eapply cap_slots0.
    + by eapply cap_slots0.
Qed.

(** Captures at the timestamps [ts]: the count grows by their number and
    every slot timestamp is an old one or one of [ts]. *)
Lemma capturing_run C v ts : 0 < C -> forall w s,
  capturing w this v C s ->
  completion (captures this ts) w = Normal tt /\
  exists s', heap (exec (captures this ts) w) !! this = Some s' /\
    capturing (exec (captures this ts) w) this v C s' /\
    frameCount s' = frameCount s + Z.of_nat (length ts) /\
    Forall (fun f => In (captureTs f) (map captureTs (buffer s) ++ ts)) (buffer s').
Proof.
  intros HC. induction ts as [|t0 ts IH]; intros w s Hc.
  - split; [done|]. exists s. destruct Hc as [Hh]. simpl.
    split; [done|]. split; [by constructor|]. split; [lia|].
    rewrite app_nil_r. apply Forall_forall. intros f Hf.
    apply in_map. by apply list_elem_of_In.
  - destruct (capturing_step w v C s t0 Hc HC) as (Hn & Hh & Hc').
    unfold completion, exec in *. unfold captures. simpl forEach.
    destruct (_captureFrame this t0 w) as [r w1] eqn:Hrun. simpl in Hn, Hh, Hc'.
    subst r. erewrite bind_Normal by exact Hrun.
    destruct (IH w1 _ Hc') as (Hn' & s' & Hs' & Hcs' & Hcount & Hall).
    unfold captures in *. split; [done|]. exists s'.
    split; [done|]. split; [done|]. split.
    { rewrite Hcount. simpl frameCount. rewrite length_cons. lia. }
    eapply Forall_impl; [exact Hall|]. intros f Hin. simpl in Hin.
    apply in_app_or in Hin as [Hin|Hin]; [|apply in_or_app; right; by right].
    apply in_map_iff in Hin as (g & <- & Hg).
    apply list_elem_of_In, list_elem_of_lookup in Hg as [i Hg].
    rewrite list_lookup_alter in Hg. case_decide.
    + destruct (buffer s !! _) as [g0|] eqn:Hg0 in Hg; simpl in Hg; [|done].
      injection Hg as <-.
      destruct (CaptureFrame_ts v t0 g0) as [->| ->].
      * apply in_or_app. right. by left.
      * apply in_or_app. left. apply in_map.
        apply list_elem_of_In, list_elem_of_lookup. eauto.
    + apply in_or_app. left. apply in_map.
      apply list_elem_of_In, list_elem_of_lookup. eauto.
Qed.

End Ring.

Section Latest.

(** C4.  A session with capacity C >= 2 starts from an empty ring
    ([frameCount] = 0, every [captureTs] = 0) and runs N >= 1 capture cycles
    that get past the gate while the video has a picture size, at the
    timestamps ts ++ [t].  All cycles complete normally; afterwards
    [frameCount] = N; the last cycle changed slot (N-1) mod C and no other,
    and that slot holds the timestamp t of the last capture.  When the
    timestamps are positive and strictly increasing every other slot holds
    a smaller timestamp. *)
Theorem latest_capture_in_slot_N_minus_1_mod_C
    (w : World) (this : ref) (v : Video) (C : Z) (s : FrameSync) (ts : list Z) (t : Z) :
  capturing w this v C s ->
  2 <= C ->
  frameCount s = 0 ->
  Forall (fun f => captureTs f = 0) (buffer s) ->
  let N := Z.of_nat (length (ts ++ [t])) in
  let latest := Z.to_nat ((N - 1) mod C) in
  completion (captures this (ts ++ [t])) w = Normal tt /\
  exists s0 s1,
    heap (exec (captures this ts) w) !! this = Some s0 /\
    heap (exec (captures this (ts ++ [t])) w) !! this = Some s1 /\
    frameCount s1 = N /\
    buffer s1 = alter (CaptureFrame v t) latest (buffer s0) /\
    captureTs <$> buffer s1 !! latest = Some t /\
    (Forall (fun x => 0 < x) (ts ++ [t]) -> StronglySorted Z.lt (ts ++ [t]) ->
     forall (j : nat) f, buffer s1 !! j = Some f -> j <> latest ->
       captureTs f < t).
Proof.
  intros Hc HC H0 Hempty N latest.
  assert (0 < C) as HC' by lia.
  destruct (capturing_run this C v ts HC' w s Hc) as (Hn & s0 & Hs0 & Hc0 & Hcount & Hall).
  destruct (capturing_slot this _ v C s0 Hc0 HC') as (Hnext & slot & Hslot & _ & _).
  destruct (capturing_step this _ v C s0 t Hc0 HC') as (Hn1 & Hh1 & _).
  assert (frameCount s0 = N - 1) as HN.
  { subst N. rewrite Hcount, H0, length_app. simpl. lia. }
  assert (Z.to_nat (default 0 (nextFrameIndex s0)) = latest) as Hlatest.
  { rewrite Hnext. simpl. by rewrite HN. }
  unfold completion, exec in *. rewrite captures_snoc.
  destruct (captures this ts w) as [r w0] eqn:Hrun. simpl in Hn, Hs0, Hn1, Hh1.
  subst r. erewrite bind_Normal by exact Hrun.
  split; [done|]. exists s0, (captured v t s0).
  split; [done|]. split; [done|]. split; [simpl; lia|].
  unfold captured. simpl buffer. rewrite Hlatest.
  split; [done|]. split.
  { rewrite list_lookup_alter. case_decide; [|done].
    rewrite HN in Hslot. fold N latest in Hslot. rewrite Hslot. simpl.
    destruct Hc. by rewrite CaptureFrame_sized. }
  intros Hpos Hsorted j f Hf Hj.
  rewrite list_lookup_alter in Hf. case_decide; [done|].
  rewrite Forall_lookup in Hall. specialize (Hall _ _ Hf). simpl in Hall.
  apply in_app_or in Hall as [Hin|Hin].
  - apply in_map_iff in Hin as (g & <- & Hg).
    rewrite Forall_forall in Hempty.
    rewrite (Hempty g) by by apply list_elem_of_In.
    rewrite Forall_app, Forall_singleton in Hpos. by destruct Hpos.
  - eapply (StronglySorted_app_1_elem_of Z.lt ts [t]); [done| |by left].
    by apply list_elem_of_In.
Qed.

Lemma latest_capture_in_slot_N_minus_1_mod_C_witness :
  exists s1,
    heap (exec (captures 0%nat ([10; 30; 60; 90] ++ [120])) activated_world) !! 0%nat
      = Some s1 /\
    frameCount s1 = 5 /\
    captureTs <$> buffer s1 !! 0%nat = Some 120 /\
    forall (j : nat) f, buffer s1 !! j = Some f -> j <> 0%nat -> captureTs f < 120.
Proof.
  assert (capturing activated_world 0%nat activated_video 4 activated_session)
    as Hc by (constructor; try reflexivity; repeat constructor).
  destruct (latest_capture_in_slot_N_minus_1_mod_C
              activated_world 0%nat activated_video 4 activated_session
              [10; 30; 60; 90] 120 Hc)
    as (_ & s0 & s1 & _ & H1 & H2 & _ & H3 & H4).
  - lia.
  - reflexivity.
  - repeat constructor.
  - exists s1. split; [exact H1|]. split; [exact H2|]. split; [exact H3|].
    apply H4.
    + repeat constructor.
    + repeat constructor.
Defined.

End Latest.

(** ** Overflow and captures without picture size *)

Section Overflow.

(** C2, as the code has it.  Capacity 2, delay 10, captures at 0 and 5: the
    second capture cycle completes normally and writes no overflow
    diagnostic, because slot 1 is still empty when it is written; it stores
    timestamp 5 in slot 1 and raises [frameCount] to 2. *)
Theorem second_capture_writes_slot_1_without_diagnostic :
  session_run 2 10 [0] (page [playing_video]) = (Normal 0%nat, overflow_scenario_first) /\
  slot_timestamps 0%nat overflow_scenario_first = [0; 0] /\
  _captureFrame 0%nat 5 overflow_scenario_first = (Normal tt, overflow_scenario) /\
  console overflow_scenario = [] /\
  slot_timestamps 0%nat overflow_scenario = [0; 5] /\
  frameCount <$> heap overflow_scenario !! 0%nat = Some 2.
Proof. by vm_compute. Qed.

(** C2 as stated fails: after the two captures no overflow diagnostic is on
    the console. *)
Lemma second_capture_overflow_diagnostic_refuted :
  ~ (In Warn_buffer_overflow
       (console (exec (session_run 2 10 [0; 5]) (page [playing_video]))) /\
     slot_timestamps 0%nat (exec (session_run 2 10 [0; 5]) (page [playing_video]))
       = [0; 5] /\
     frameCount <$> heap (exec (session_run 2 10 [0; 5]) (page [playing_video])) !! 0%nat
       = Some 2).
Proof. vm_compute. intros [[] _]. Qed.

(** C8.  When the video of the slot reports zero width or zero height,
    [CaptureFrame] leaves the slot as it is, timestamp included, and the
    capture cycle that called it still completes normally with the buffer
    unchanged and [frameCount] raised by one. *)
Theorem unsized_capture_keeps_slot_and_advances_frameCount
    (w : World) (this : ref) (s : FrameSync) (v sv : Video) (now : Z)
    (slot : BufferFrame) :
  heap w !! this = Some s ->
  videos w !! video s = Some v ->
  active s = true -> paused v = false -> hidden w = false ->
  index (buffer s) (nextFrameIndex s) = Some slot ->
  videos w !! bf_video slot = Some sv ->
  videoWidth sv = 0 \/ videoHeight sv = 0 ->
  CaptureFrame sv now slot = slot /\
  completion (_captureFrame this now) w = Normal tt /\
  heap (exec (_captureFrame this now) w) !! this
    = Some (set_frameCount (frameCount s + 1) s).
Proof.
  intros Hs Hv Ha Hp Hh Hslot Hsv Hz.
  split; [by apply CaptureFrame_unsized|].
  unfold completion, exec. erewrite _captureFrame_captures by done. simpl.
  split; [done|]. rewrite list_lookup_insert_eq by by eapply lookup_lt_Some.
  unfold captured. rewrite list_alter_id, set_buffer_id; [done|].
  intros f. by apply CaptureFrame_unsized.
Qed.

Lemma unsized_capture_keeps_slot_and_advances_frameCount_witness :
  exists s slot,
    heap unsized_world !! 0%nat = Some s /\
    index (buffer s) (nextFrameIndex s) = Some slot /\
    CaptureFrame (set_frameSyncObj (Some 0%nat) unsized_video) 16 slot = slot /\
    heap (exec (_captureFrame 0%nat 16) unsized_world) !! 0%nat
      = Some (set_frameCount (frameCount s + 1) s).
Proof.
  eexists _, _. split; [reflexivity|]. split; [reflexivity|].
  refine (let H := unsized_capture_keeps_slot_and_advances_frameCount
            unsized_world 0%nat _ (set_frameSyncObj (Some 0%nat) unsized_video)
            (set_frameSyncObj (Some 0%nat) unsized_video) 16 _
            eq_refl eq_refl eq_refl eq_refl eq_refl eq_refl _ (or_introl eq_refl)
          in conj (proj1 H) (proj2 (proj2 H))).
  reflexivity.
Defined.

End Overflow.

(** ** Deactivate *)

Section Deactivation.

Lemma updVideo_run w i f :
  updVideo i f w = (Normal tt, set_videos (alter f i (videos w)) w).
Proof. done. Qed.

Lemma Deactivate_run w this s :
  heap w !! this = Some s ->
  Deactivate this w =
    (Normal tt,
     mkWorld (alter (set_frameSyncObj None) (video s) (videos w))
       (<[this := deactivated s]> (heap w))
       (hidden w) (console w) (animationFrames w)
       (currentFrameDelay w) (isPaused w)).
Proof.
  intros Hs. unfold Deactivate.
  assert (this < length (heap w))%nat as Hlt by by eapply lookup_lt_Some.
  erewrite bind_Normal by by apply updObj_Some.
  erewrite bind_Normal by (apply readObj_Some; by eapply heap_insert_lookup).
  simpl canvas. simpl resizeObserver. simpl video.
  destruct (canvas s) as [c|] eqn:Hc, (resizeObserver s) as [o|] eqn:Ho.
  - erewrite bind_Normal by (apply updObj_Some; by eapply heap_insert_lookup).
    erewrite bind_Normal.
    2:{ apply updObj_Some. simpl. apply list_lookup_insert_eq.
        by rewrite length_insert. }
    rewrite updVideo_run; simpl; rewrite ?list_insert_insert_eq;
    unfold set_videos, set_heap, set_canvas, set_resizeObserver, set_active,
      deactivated; simpl; rewrite ?Hc, ?Ho; done.
  - erewrite bind_Normal by (apply updObj_Some; by eapply heap_insert_lookup).
    erewrite bind_Normal by reflexivity.
    rewrite updVideo_run; simpl; rewrite ?list_insert_insert_eq;
    unfold set_videos, set_heap, set_canvas, set_resizeObserver, set_active,
      deactivated; simpl; rewrite ?Hc, ?Ho; done.
  - erewrite bind_Normal by reflexivity.
    erewrite bind_Normal by (apply updObj_Some; by eapply heap_insert_lookup).
    rewrite updVideo_run; simpl; rewrite ?list_insert_insert_eq;
    unfold set_videos, set_heap, set_canvas, set_resizeObserver, set_active,
      deactivated; simpl; rewrite ?Hc, ?Ho; done.
  - erewrite bind_Normal by reflexivity.
    erewrite bind_Normal by reflexivity.
    rewrite updVideo_run; simpl; rewrite ?list_insert_insert_eq;
    unfold set_videos, set_heap, set_canvas, set_resizeObserver, set_active,
      deactivated; simpl; rewrite ?Hc, ?Ho; done.
Qed.

(** C10.  [Deactivate()] completes normally and changes four things only:
    [active] becomes false, [canvas] and [resizeObserver] become null, and
    the [frameSyncObj] link of the session's video is deleted.  The buffer
    with all its slots and timestamps, [frameCount],
    [lastDrawnFrameIndex], [frameDelayMs] and [maxBuffer] are as before, and
    so are all other objects, the console and the scheduled callbacks. *)
Theorem Deactivate_changes_only_active_canvas_observer_link
    (w : World) (this : ref) (s : FrameSync) :
  heap w !! this = Some s ->
  Deactivate this w =
    (Normal tt,
     mkWorld (alter (set_frameSyncObj None) (video s) (videos w))
       (<[this := deactivated s]> (heap w))
       (hidden w) (console w) (animationFrames w)
       (currentFrameDelay w) (isPaused w)) /\
  active (deactivated s) = false /\
  canvas (deactivated s) = None /\
  resizeObserver (deactivated s) = None /\
  buffer (deactivated s) = buffer s /\
  frameCount (deactivated s) = frameCount s /\
  lastDrawnFrameIndex (deactivated s) = lastDrawnFrameIndex s /\
  frameDelayMs (deactivated s) = frameDelayMs s /\
  maxBuffer (deactivated s) = maxBuffer s /\
  video (deactivated s) = video s.
Proof. intros Hs. split; [by apply Deactivate_run|done]. Qed.

Lemma Deactivate_changes_only_active_canvas_observer_link_witness :
  heap playback_scenario !! 0%nat = Some playback_session /\
  heap (exec (Deactivate 0%nat) playback_scenario) !! 0%nat
    = Some (deactivated playback_session) /\
  frameSyncObj <$> videos (exec (Deactivate 0%nat) playback_scenario) !! 0%nat
    = Some None /\
  frameCount (deactivated playback_session) = 5.
Proof.
  split; [reflexivity|].
  pose proof (proj1 (Deactivate_changes_only_active_canvas_observer_link
    playback_scenario 0%nat playback_session eq_refl)) as H.
  unfold exec. rewrite H. simpl. split; [reflexivity|]. split; reflexivity.
Defined.

End Deactivation.

(** ** The constructor *)

Section Construction.



End Construction.

(** ** Resize and Activate *)

Section Activation.

Variable this : ref.

Lemma Resize_loop v todo : forall scanned w s,
  heap w !! this = Some s -> videos w !! video s = Some v ->
  buffer s = scanned ++ todo ->
  Forall (fun f => bf_video f = video s) todo ->
  for_loop (length todo) (length scanned) (fun i =>
      s <- readObj this;
      f <- deref (buffer s !! i);
      v <- readVideo (bf_video f);
      updObj this (set_buffer (<[i := BufferFrame_Resize v f]> (buffer s)))) w
  = (Normal tt,
     set_heap (<[this := set_buffer
        (scanned ++ map (BufferFrame_Resize v) todo) s]> (heap w)) w).
Proof.
  induction todo as [|f todo IH]; intros scanned w s Hs Hv Hb Hall; simpl.
  - rewrite <- Hb, set_buffer_id, list_insert_id, set_heap_id; done.
  - apply Forall_cons in Hall as [Hf Hall].
    assert (buffer s !! length scanned = Some f) as Hlook.
    { rewrite Hb. by apply list_lookup_middle. }
    erewrite bind_Normal; last first.
    { erewrite bind_Normal by by apply readObj_Some.
      rewrite Hlook. erewrite bind_Normal by reflexivity.
      rewrite Hf. erewrite bind_Normal by by apply readVideo_Some.
      by apply updObj_Some. }
    assert (<[length scanned := BufferFrame_Resize v f]> (buffer s)
            = (scanned ++ [BufferFrame_Resize v f]) ++ todo) as Hb'.
    { rewrite Hb, insert_app_r_alt, Nat.sub_diag, <- app_assoc by lia. done. }
    specialize (IH (scanned ++ [BufferFrame_Resize v f])
      (set_heap (<[this := set_buffer
          (<[length scanned := BufferFrame_Resize v f]> (buffer s)) s]> (heap w)) w)
      (set_buffer (<[length scanned := BufferFrame_Resize v f]> (buffer s)) s)).
    rewrite length_app, Nat.add_1_r in IH. rewrite IH.
    + simpl. rewrite list_insert_insert_eq, <- app_assoc. done.
    + by eapply heap_insert_lookup.
    + done.
    + done.
    + done.
Qed.

Lemma Resize_run w v s :
  session_at w this v s ->
  Resize this w = (Normal tt, set_heap (<[this := resized v s]> (heap w)) w).
Proof.
  intros [Hs Hv Hlen Hall]. unfold Resize, resized.
  erewrite bind_Normal by by apply readObj_Some.
  destruct (canvas s) as [c|] eqn:Hc.
  - erewrite bind_Normal by by apply readVideo_Some.
    destruct ((videoWidth v =? 0) || (videoHeight v =? 0)).
    + by rewrite list_insert_id, set_heap_id.
    + erewrite bind_Normal by by apply updObj_Some.
      replace (Z.to_nat (maxBuffer s)) with (length (buffer s)) by lia.
      rewrite (Resize_loop v (buffer s) []
                 (set_heap (<[this := set_canvas
                     (Some (mkCanvas (videoWidth v) (videoHeight v) None)) s]>
                     (heap w)) w)
                 (set_canvas (Some (mkCanvas (videoWidth v) (videoHeight v) None)) s));
        try done.
      * simpl. by rewrite list_insert_insert_eq.
      * by eapply heap_insert_lookup.
  - by rewrite list_insert_id, set_heap_id.
Qed.

Lemma Activate_run w v s :
  session_at w this v s -> active s = false -> canvas s = None ->
  Activate this w =
    (Normal tt,
     mkWorld (videos w) (<[this := activated v s]> (heap w)) (hidden w)
       (console w)
       (animationFrames w ++ [captureFrameFunc this; drawFrameFunc this])
       (currentFrameDelay w) (isPaused w)).
Proof.
  intros Hat Ha Hc. pose proof Hat as [Hs Hv Hlen Hall].
  assert (this < length (heap w))%nat as Hlt by by eapply lookup_lt_Some.
  unfold Activate.
  erewrite bind_Normal by by apply readObj_Some.
  rewrite Ha.
  erewrite bind_Normal by by apply updObj_Some.
  erewrite bind_Normal; last first.
  { unfold _createCanvasOverlay.
    erewrite bind_Normal by (apply readObj_Some; by eapply heap_insert_lookup).
    change (canvas (set_active true s)) with (canvas s). rewrite Hc.
    change (video (set_active true s)) with (video s).
    erewrite bind_Normal by (apply updObj_Some; by eapply heap_insert_lookup).
    erewrite bind_Normal; last first.
    { apply (Resize_run _ v
        (set_canvas (Some (mkCanvas 300 150 None)) (set_active true s))).
      constructor; simpl; try done.
      apply list_lookup_insert_eq. by rewrite length_insert. }
    apply updObj_Some. simpl. apply list_lookup_insert_eq.
    by rewrite !length_insert. }
  unfold requestAnimationFrame, modify, bind. simpl.
  rewrite !list_insert_insert_eq, <- app_assoc. done.
Qed.

Lemma activated_fields v s :
  active (activated v s) = true /\
  frameCount (activated v s) = frameCount s /\
  lastDrawnFrameIndex (activated v s) = lastDrawnFrameIndex s /\
  frameDelayMs (activated v s) = frameDelayMs s /\
  maxBuffer (activated v s) = maxBuffer s /\
  video (activated v s) = video s /\
  map captureTs (buffer (activated v s)) = map captureTs (buffer s) /\
  canvas (activated v s) <> None.
Proof.
  unfold activated, resized. simpl.
  destruct ((videoWidth v =? 0) || (videoHeight v =? 0)); simpl;
    repeat split; try done.
  rewrite map_map. done.
Qed.

End Activation.

(** ** Construction of a new session *)

Section Fresh.

Lemma insert_last {A} (l : list A) (x y : A) :
  <[length l := y]> (l ++ [x]) = l ++ [y].
Proof. rewrite insert_app_r_alt, Nat.sub_diag by lia. done. Qed.

Lemma lookup_last {A} (l : list A) (x : A) : (l ++ [x]) !! length l = Some x.
Proof. by apply list_lookup_middle. Qed.

Lemma new_FrameSync_fresh w vid v n d :
  videos w !! vid = Some v -> frameSyncObj v = None -> 2 <= n ->
  new_FrameSync vid n d w =
    (Normal (length (heap w)),
     mkWorld (<[vid := set_frameSyncObj (Some (length (heap w))) v]> (videos w))
       (heap w ++ [constructed vid v n d])
       (hidden w) (console w) (animationFrames w)
       (currentFrameDelay w) (isPaused w)).
Proof.
  intros Hv Hlink Hn. unfold new_FrameSync.
  erewrite bind_Normal by by apply readVideo_Some.
  rewrite Hlink. erewrite bind_Normal by reflexivity.
  erewrite bind_Normal; last first.
  { apply (SetMaxBuffer_accepts _ _
             (mkFrameSync vid [] 0 d false 0 (-1) None None) v); try done.
    simpl. apply lookup_last. }
  erewrite bind_Normal by apply updVideo_run.
  simpl. rewrite insert_last, (alter_Some _ _ _ _ Hv). done.
Qed.

Lemma constructed_session_at w this vid v v' n d :
  heap w !! this = Some (constructed vid v n d) ->
  videos w !! vid = Some v' -> 0 <= n ->
  session_at w this v' (constructed vid v n d).
Proof.
  intros Hs Hv Hn. constructor; simpl; try done.
  - rewrite length_replicate. lia.
  - apply Forall_replicate. done.
Qed.

End Fresh.

(** ** Deactivate followed by Activate *)

Section Reactivation.

(** C3, as the code has it.  [Deactivate()] followed by [Activate()] on the
    same session completes normally and leaves the session active with the
    ring as it was: [frameCount], [lastDrawnFrameIndex] and the timestamp of
    every slot are those from before [Deactivate()].  A ring that starts
    empty is what a newly constructed session has: after [Deactivate()] has
    deleted the link, the constructor (capacity at least 2) builds a new
    object for the video, with [frameCount] = 0,
    [lastDrawnFrameIndex] = -1 and every [captureTs] = 0, and the old
    object stays as [Deactivate()] left it. *)
Theorem Deactivate_then_Activate_keeps_the_ring
    (w : World) (this : ref) (v : Video) (s : FrameSync) (n d : Z) :
  session_at w this v s ->
  2 <= n ->
  (completion (Deactivate this ;; Activate this) w = Normal tt /\
   exists s',
     heap (exec (Deactivate this ;; Activate this) w) !! this = Some s' /\
     active s' = true /\
     frameCount s' = frameCount s /\
     lastDrawnFrameIndex s' = lastDrawnFrameIndex s /\
     map captureTs (buffer s') = map captureTs (buffer s)) /\
  (completion (Deactivate this ;; new_FrameSync (video s) n d) w
     = Normal (length (heap w)) /\
   heap (exec (Deactivate this ;; new_FrameSync (video s) n d) w) !! this
     = Some (deactivated s) /\
   exists s',
     heap (exec (Deactivate this ;; new_FrameSync (video s) n d) w) !! length (heap w)
       = Some s' /\
     frameCount s' = 0 /\
     lastDrawnFrameIndex s' = -1 /\
     Forall (fun f => captureTs f = 0) (buffer s')).
Proof.
  intros [Hs Hv Hlen Hall] Hn.
  assert (this < length (heap w))%nat as Hlt by by eapply lookup_lt_Some.
  assert (video s < length (videos w))%nat as Hvlt by by eapply lookup_lt_Some.
  unfold completion, exec.
  rewrite !(bind_Normal _ _ _ _ _ (Deactivate_run w this s Hs)).
  split.
  - erewrite (Activate_run this _ (set_frameSyncObj None v) (deactivated s));
      try done.
    + simpl. split; [done|]. exists (activated (set_frameSyncObj None v) (deactivated s)).
      split; [apply list_lookup_insert_eq; by rewrite length_insert|].
      destruct (activated_fields (set_frameSyncObj None v) (deactivated s))
        as (? & ? & ? & _ & _ & _ & ? & _).
      done.
    + constructor; simpl; try done.
      * by apply list_lookup_insert_eq.
      * by rewrite list_lookup_alter_eq, Hv.
  - erewrite (new_FrameSync_fresh _ (video s) (set_frameSyncObj None v)); try done.
    + simpl. rewrite length_insert. split; [done|]. split.
      * rewrite lookup_app_l by by rewrite length_insert.
        by apply list_lookup_insert_eq.
      * eexists. split.
        { rewrite <- (length_insert (heap w) this (deactivated s)).
          apply lookup_last. }
        simpl. repeat split. by apply Forall_replicate.
    + simpl. by rewrite list_lookup_alter_eq, Hv.
Qed.

Lemma Deactivate_then_Activate_keeps_the_ring_witness :
  exists s',
    heap (exec (Deactivate 0%nat ;; Activate 0%nat) playback_scenario) !! 0%nat
      = Some s' /\
    active s' = true /\ frameCount s' = 5 /\ lastDrawnFrameIndex s' = 2.
Proof.
  assert (session_at playback_scenario 0%nat playback_video playback_session)
    as Hat by (constructor; try reflexivity; repeat constructor).
  destruct (Deactivate_then_Activate_keeps_the_ring
              playback_scenario 0%nat playback_video playback_session 60 100
              Hat)
    as [(_ & s' & H1 & H2 & H3 & H4 & _) _]; [lia|].
  exists s'. split; [exact H1|]. split; [exact H2|]. split; [exact H3|exact H4].
Defined.

(** C3 as stated fails: the session of the playback scenario has
    [frameCount] = 5 and [lastDrawnFrameIndex] = 2, and still has them
    after [Deactivate()] and [Activate()]. *)
Lemma Deactivate_then_Activate_empty_ring_refuted :
  ~ (frameCount <$> heap (exec (Deactivate 0%nat ;; Activate 0%nat) playback_scenario) !! 0%nat
       = Some 0 /\
     lastDrawnFrameIndex <$>
       heap (exec (Deactivate 0%nat ;; Activate 0%nat) playback_scenario) !! 0%nat
       = Some (-1)).
Proof. vm_compute. intros [H _]. discriminate H. Qed.

End Reactivation.

(** ** The playback cycle *)

Section Playback.

Variable this : ref.

(** The selected index, when not "none", is the index of a slot. *)
Lemma _findBestFrameToShow_index buffer targetTs :
  _findBestFrameToShow buffer targetTs <> -1 ->
  exists slot,
    index buffer (Some (_findBestFrameToShow buffer targetTs)) = Some slot.
Proof.
  intros Hne.
  destruct (_findBestFrameToShow_selects targetTs buffer)
    as [[Hr _]|(Hr & f & Hf & _)]; [done|].
  exists f. simpl.
  destruct (Z.ltb_spec (_findBestFrameToShow buffer targetTs) 0); [lia|done].
Qed.

Lemma _drawFrame_gated w s v now :
  heap w !! this = Some s -> videos w !! video s = Some v ->
  negb (active s) || paused v = true ->
  _drawFrame this now w =
    (Normal tt, set_animationFrames (animationFrames w ++ [drawFrameFunc this]) w).
Proof.
  intros Hs Hv Hg. unfold _drawFrame.
  erewrite bind_Normal by by apply readObj_Some.
  erewrite bind_Normal by by apply readVideo_Some.
  by rewrite Hg.
Qed.

Lemma _drawFrame_run w s v now :
  heap w !! this = Some s -> videos w !! video s = Some v ->
  active s = true -> paused v = false ->
  _drawFrame this now w =
    (Normal tt,
     mkWorld (videos w) (<[this := drawn now s]> (heap w)) (hidden w)
       (console w ++ draw_errors now s)
       (animationFrames w ++ [drawFrameFunc this])
       (currentFrameDelay w) (isPaused w)).
Proof.
  intros Hs Hv Ha Hp. unfold _drawFrame.
  assert (this < length (heap w))%nat as Hlt by by eapply lookup_lt_Some.
  erewrite bind_Normal by by apply readObj_Some.
  erewrite bind_Normal by by apply readVideo_Some.
  assert (negb (active s) || paused v = false) as -> by (by rewrite Ha, Hp).
  cbv iota zeta. unfold drawn, draw_errors, render_candidate.
  set (best := _findBestFrameToShow (buffer s) (now - frameDelayMs s)).
  assert (forall (m : JS unit) w',
    m w = (Normal tt, w') ->
    (m ;; requestAnimationFrame (drawFrameFunc this)) w
      = (Normal tt, set_animationFrames (animationFrames w' ++ [drawFrameFunc this]) w'))
    as Hfin.
  { intros m w' Hm. by erewrite bind_Normal by exact Hm. }
  assert (set_heap (<[this := s]> (heap w)) w = w) as Hid
    by (by rewrite list_insert_id, set_heap_id).
  destruct (negb (best =? -1) && negb (best =? lastDrawnFrameIndex s)) eqn:Hcond.
  - destruct (_findBestFrameToShow_index (buffer s) (now - frameDelayMs s))
      as [slot Hslot].
    { fold best. destruct (Z.eqb_spec best (-1)); [done|]. done. }
    fold best in Hslot. rewrite Hslot.
    destruct ((0 <? frame_width slot) && (0 <? frame_height slot)) eqn:Hdim.
    + assert ((frame_width slot =? 0) || (frame_height slot =? 0) = false) as Hz.
      { apply andb_prop in Hdim as [H1 H2]. apply Z.ltb_lt in H1, H2.
        destruct (Z.eqb_spec (frame_width slot) 0); [lia|].
        destruct (Z.eqb_spec (frame_height slot) 0); [lia|]. done. }
      destruct (canvas s) as [c|] eqn:Hc.
      * erewrite Hfin; last first.
        { erewrite bind_Normal by reflexivity. rewrite Hdim.
          unfold try_catch. erewrite bind_Normal; last first.
          { unfold drawImage_overlay.
            erewrite bind_Normal by by apply readObj_Some.
            rewrite Hc. erewrite bind_Normal by reflexivity.
            rewrite Hz. by apply updObj_Some. }
          erewrite updObj_Some by by eapply heap_insert_lookup.
          reflexivity. }
        simpl. rewrite list_insert_insert_eq, app_nil_r. done.
      * erewrite Hfin; last first.
        { erewrite bind_Normal by reflexivity. rewrite Hdim.
          unfold try_catch. erewrite bind_Thrown; last first.
          { unfold drawImage_overlay.
            erewrite bind_Normal by by apply readObj_Some.
            rewrite Hc. reflexivity. }
          reflexivity. }
        simpl. rewrite list_insert_id by done. done.
    + erewrite Hfin; last first.
      { erewrite bind_Normal by reflexivity. rewrite Hdim. reflexivity. }
      simpl. rewrite list_insert_id, app_nil_r by done. by destruct w.
  - erewrite Hfin by reflexivity.
    simpl. rewrite list_insert_id, app_nil_r by done. by destruct w.
Qed.

(** The playback cycle never throws. *)
Lemma _drawFrame_never_throws w s v now :
  heap w !! this = Some s -> videos w !! video s = Some v ->
  completion (_drawFrame this now) w = Normal tt.
Proof.
  intros Hs Hv. unfold completion.
  destruct (negb (active s) || paused v) eqn:Hg.
  - by erewrite _drawFrame_gated.
  - apply orb_false_elim in Hg as [Ha Hp]. apply negb_false_iff in Ha.
    by erewrite _drawFrame_run.
Qed.

End Playback.

(** ** The controller *)

Section Controller.

Lemma syncVideo_updates w vid v o :
  videos w !! vid = Some v -> frameSyncObj v = Some o ->
  0 < currentFrameDelay w -> isPaused w = false ->
  syncVideo vid w =
    (Normal tt,
     set_heap (alter (set_frameDelayMs (currentFrameDelay w)) o (heap w)) w).
Proof.
  intros Hv Hlink Hd Hp. unfold syncVideo.
  erewrite bind_Normal by reflexivity.
  erewrite bind_Normal by by apply readVideo_Some.
  rewrite Hp. destruct (Z.ltb_spec 0 (currentFrameDelay w)); [|lia].
  simpl. by rewrite Hlink.
Qed.

Lemma syncVideo_creates w vid v :
  videos w !! vid = Some v -> frameSyncObj v = None ->
  0 < currentFrameDelay w -> isPaused w = false ->
  let this := length (heap w) in
  let v' := set_frameSyncObj (Some this) v in
  let c := constructed vid v 60 (currentFrameDelay w) in
  syncVideo vid w =
    (Normal tt,
     mkWorld (<[vid := v']> (videos w)) (heap w ++ [activated v' c])
       (hidden w) (console w)
       (animationFrames w ++ [captureFrameFunc this; drawFrameFunc this])
       (currentFrameDelay w) (isPaused w)).
Proof.
  intros Hv Hlink Hd Hp. cbv zeta. unfold syncVideo.
  erewrite bind_Normal by reflexivity.
  erewrite bind_Normal by by apply readVideo_Some.
  assert ((0 <? currentFrameDelay w) && negb (isPaused w) = true) as ->.
  { rewrite Hp. by destruct (Z.ltb_spec 0 (currentFrameDelay w)); [|lia]. }
  cbv iota. rewrite Hlink.
  erewrite bind_Normal by (by apply new_FrameSync_fresh).
  assert (vid < length (videos w))%nat as Hlt by by eapply lookup_lt_Some.
  erewrite (Activate_run _ _ (set_frameSyncObj (Some (length (heap w))) v)
              (constructed vid v 60 (currentFrameDelay w))); try done.
  - simpl. by rewrite insert_last.
  - apply constructed_session_at; simpl; [apply lookup_last| |lia].
    by apply list_lookup_insert_eq.
Qed.

(** A loop over the indices [i .. n-1] that keeps an indexed invariant. *)
Lemma forEach_seq_invariant (K : nat -> World -> Prop) (f : nat -> JS unit) n :
  (forall i w, (i < n)%nat -> K i w ->
     completion (f i) w = Normal tt /\ K (S i) (exec (f i) w)) ->
  forall k i w, (i + k = n)%nat -> K i w ->
    completion (forEach (seq i k) f) w = Normal tt /\
    K n (exec (forEach (seq i k) f) w).
Proof.
  intros Hstep. induction k as [|k IH]; intros i w Hik HK; simpl.
  - replace n with i by lia. done.
  - destruct (Hstep i w) as [Hc HK']; [lia|done|].
    unfold completion, exec in *.
    destruct (f i w) as [r w1] eqn:Hrun. simpl in Hc, HK'. subst r.
    erewrite bind_Normal by exact Hrun. apply IH; [lia|done].
Qed.

(** [updateSyncForVideos] with a positive delay and no pause: the session
    [s] attached to video [vid] gets the delay and nothing else, and the
    video itself is untouched. *)
Lemma updateSyncForVideos_updates w vid v r s :
  videos w !! vid = Some v -> frameSyncObj v = Some r ->
  heap w !! r = Some s ->
  0 < currentFrameDelay w -> isPaused w = false ->
  completion updateSyncForVideos w = Normal tt /\
  heap (exec updateSyncForVideos w) !! r
    = Some (set_frameDelayMs (currentFrameDelay w) s) /\
  videos (exec updateSyncForVideos w) !! vid = Some v /\
  hidden (exec updateSyncForVideos w) = hidden w.
Proof.
  intros Hv Hlink Hs Hd Hp.
  set (d := currentFrameDelay w).
  set (K := fun (i : nat) (w' : World) =>
    currentFrameDelay w' = d /\ isPaused w' = false /\
    length (videos w') = length (videos w) /\
    videos w' !! vid = Some v /\ hidden w' = hidden w /\
    (heap w' !! r = Some s \/ heap w' !! r = Some (set_frameDelayMs d s)) /\
    ((vid < i)%nat -> heap w' !! r = Some (set_frameDelayMs d s))).
  assert (vid < length (videos w))%nat as Hvid by by eapply lookup_lt_Some.
  destruct (forEach_seq_invariant K syncVideo (length (videos w))) with
    (k := length (videos w)) (i := 0%nat) (w := w) as [Hc HK].
  - intros i w' Hi (Hd' & Hp' & Hlen & Hv' & Hh' & Hr & Hafter).
    assert (0 < currentFrameDelay w') as Hpos by by rewrite Hd'.
    destruct (lookup_lt_is_Some_2 (videos w') i) as [vi Hvi]; [lia|].
    assert (r < length (heap w'))%nat as Hrlt
      by (destruct Hr as [Hr|Hr]; by eapply lookup_lt_Some).
    unfold completion, exec.
    destruct (frameSyncObj vi) as [o|] eqn:Hlink'.
    + rewrite (syncVideo_updates w' i vi o Hvi Hlink' Hpos Hp'). unfold K. simpl.
      split; [done|]. rewrite Hd'. repeat split; try done.
      * destruct (decide (o = r)) as [->|Hne].
        -- right. rewrite list_lookup_alter_eq. by destruct Hr as [->| ->].
        -- by rewrite list_lookup_alter_ne.
      * intros Hlt. destruct (decide (o = r)) as [->|Hne].
        -- rewrite list_lookup_alter_eq. by destruct Hr as [->| ->].
        -- rewrite list_lookup_alter_ne by done.
           destruct (decide (i = vid)) as [->|Hiv].
           ++ rewrite Hv' in Hvi. injection Hvi as <-. congruence.
           ++ apply Hafter. lia.
    + assert (i <> vid) as Hiv.
      { intros ->. rewrite Hv' in Hvi. injection Hvi as <-. congruence. }
      rewrite (syncVideo_creates w' i vi Hvi Hlink' Hpos Hp'). unfold K. simpl.
      split; [done|]. repeat split; try done.
      * by rewrite length_insert.
      * by rewrite list_lookup_insert_ne.
      * rewrite lookup_app_l by done. done.
      * intros Hlt. rewrite lookup_app_l by done. apply Hafter. lia.
  - lia.
  - unfold K. repeat split; try done; [by left|lia].
  - unfold updateSyncForVideos. unfold completion, exec in *.
    erewrite bind_Normal by reflexivity.
    destruct HK as (_ & _ & _ & Hv' & Hh' & _ & Hafter).
    split; [done|]. split; [by apply Hafter|done].
Qed.

End Controller.

(** ** What every configuration change keeps *)

Section Kept.

Lemma forEach_preserves {A} (I : World -> Prop) (f : A -> JS unit) l :
  (forall x w, I w -> I (exec (f x) w)) ->
  forall w, I w -> I (exec (forEach l f) w).
Proof.
  intros Hstep. induction l as [|x l IH]; intros w HI; simpl; [done|].
  specialize (Hstep x w HI). unfold exec, bind in *.
  destruct (f x w) as [[a|e] w1]; simpl in *; [by apply IH|done].
Qed.

Lemma Deactivate_dangling w o :
  heap w !! o = None -> exec (Deactivate o) w = w.
Proof.
  intros Ho. unfold exec, Deactivate.
  erewrite bind_Normal by reflexivity.
  erewrite bind_Thrown; last first.
  { unfold readObj, bind, get, deref. simpl.
    rewrite list_lookup_alter_eq, Ho. reflexivity. }
  simpl. rewrite alter_None by done. by destruct w.
Qed.

(** Whatever a storage change carries and however the listener completes,
    a stored session keeps its buffer, [frameCount] and
    [lastDrawnFrameIndex]: it is left as it was, or with the new delay, or
    deactivated. *)
Lemma onChanged_keeps_the_ring w r s changes area :
  heap w !! r = Some s ->
  exists s',
    heap (exec (onChanged changes area) w) !! r = Some s' /\
    buffer s' = buffer s /\
    frameCount s' = frameCount s /\
    lastDrawnFrameIndex s' = lastDrawnFrameIndex s /\
    maxBuffer s' = maxBuffer s.
Proof.
  intros Hs.
  set (I := fun w' : World => exists s',
    heap w' !! r = Some s' /\ buffer s' = buffer s /\
    frameCount s' = frameCount s /\
    lastDrawnFrameIndex s' = lastDrawnFrameIndex s /\
    maxBuffer s' = maxBuffer s).
  change (I (exec (onChanged changes area) w)).
  assert (I w) as HI by (exists s; done).
  assert (forall w', I w' -> I (exec updateSyncForVideos w')) as Hsync.
  { intros w' HI'. unfold updateSyncForVideos, exec, bind, get. simpl.
    apply (forEach_preserves I syncVideo); [|done].
    clear. intros vid w' (s' & Hs' & Hb & Hc & Hl & Hm).
    assert (r < length (heap w'))%nat as Hrlt by by eapply lookup_lt_Some.
    unfold syncVideo, exec, bind at 1 2, get, readVideo, bind, get, deref. simpl.
    destruct (videos w' !! vid) as [vi|] eqn:Hvi; simpl; [|by exists s'].
    destruct ((0 <? currentFrameDelay w') && negb (isPaused w')) eqn:Hcfg.
    - apply andb_prop in Hcfg as [Hd Hp]. apply Z.ltb_lt in Hd.
      apply negb_true_iff in Hp.
      destruct (frameSyncObj vi) as [o|] eqn:Hlink.
      + unfold updObj, modify. simpl.
        destruct (decide (o = r)) as [->|Hne].
        * exists (set_frameDelayMs (currentFrameDelay w') s'). simpl.
          by rewrite list_lookup_alter_eq, Hs'.
        * exists s'. simpl. by rewrite list_lookup_alter_ne.
      + pose proof (syncVideo_creates w' vid vi Hvi Hlink Hd Hp) as Hrun.
        cbv zeta in Hrun. unfold syncVideo in Hrun.
        erewrite bind_Normal in Hrun by reflexivity.
        erewrite bind_Normal in Hrun by by apply readVideo_Some.
        rewrite Hp in Hrun.
        destruct (Z.ltb_spec 0 (currentFrameDelay w')); [|lia].
        simpl in Hrun. rewrite Hlink in Hrun. unfold bind in Hrun.
        rewrite Hrun. exists s'. simpl. by rewrite lookup_app_l.
    - destruct (frameSyncObj vi) as [o|] eqn:Hlink; [|by exists s'].
      destruct (heap w' !! o) as [so|] eqn:Ho.
      + rewrite (Deactivate_run w' o so Ho). simpl.
        destruct (decide (o = r)) as [->|Hne].
        * exists (deactivated so). simpl. rewrite list_lookup_insert_eq by done.
          rewrite Hs' in Ho. injection Ho as <-. done.
        * exists s'. simpl. by rewrite list_lookup_insert_ne.
      + change ((Deactivate o w').2) with (exec (Deactivate o) w').
        rewrite Deactivate_dangling by done. by exists s'. }
  unfold onChanged. destruct area; [|done..].
  unfold exec, bind.
  destruct (frameDelay changes) as [nv|], (pauseDelay changes) as [np|];
    simpl; apply Hsync; exists s; done.
Qed.

End Kept.

(** ** Changing the delay at runtime *)

Section DelayChange.

Lemma render_candidate_best now s b slot :
  render_candidate now s = Some (b, slot) ->
  b = _findBestFrameToShow (buffer s) (now - frameDelayMs s).
Proof.
  unfold render_candidate.
  destruct (negb _ && negb _); [|done].
  destruct (index _ _) as [f|]; [|done].
  destruct (_ && _); [|done]. by intros [= <- _].
Qed.

Lemma render_candidate_renders now s slot :
  let best := _findBestFrameToShow (buffer s) (now - frameDelayMs s) in
  best <> lastDrawnFrameIndex s ->
  index (buffer s) (Some best) = Some slot ->
  0 < frame_width slot -> 0 < frame_height slot ->
  render_candidate now s = Some (best, slot).
Proof.
  intros best Hl Hslot Hw Hh. unfold render_candidate. fold best.
  rewrite Hslot.
  assert (best <> -1) as Hm.
  { intros Hm. rewrite Hm in Hslot. done. }
  destruct (Z.eqb_spec best (-1)); [done|].
  destruct (Z.eqb_spec best (lastDrawnFrameIndex s)); [done|].
  destruct (Z.ltb_spec 0 (frame_width slot)); [|lia].
  destruct (Z.ltb_spec 0 (frame_height slot)); [|lia]. done.
Qed.

Lemma drawn_fields now s :
  let best := _findBestFrameToShow (buffer s) (now - frameDelayMs s) in
  buffer (drawn now s) = buffer s /\
  frameCount (drawn now s) = frameCount s /\
  frameDelayMs (drawn now s) = frameDelayMs s /\
  (lastDrawnFrameIndex (drawn now s) = lastDrawnFrameIndex s \/
   lastDrawnFrameIndex (drawn now s) = best) /\
  (forall slot,
     best <> lastDrawnFrameIndex s ->
     index (buffer s) (Some best) = Some slot ->
     0 < frame_width slot -> 0 < frame_height slot ->
     canvas s <> None ->
     lastDrawnFrameIndex (drawn now s) = best).
Proof.
  intros best.
  assert (forall slot,
     best <> lastDrawnFrameIndex s ->
     index (buffer s) (Some best) = Some slot ->
     0 < frame_width slot -> 0 < frame_height slot ->
     canvas s <> None ->
     lastDrawnFrameIndex (drawn now s) = best) as Hlast.
  { intros slot Hl Hslot Hw Hh Hc. unfold drawn.
    rewrite (render_candidate_renders now s slot Hl Hslot Hw Hh).
    by destruct (canvas s). }
  unfold drawn in *.
  destruct (render_candidate now s) as [[b slot]|] eqn:Hrc;
    [|repeat split; auto].
  apply render_candidate_best in Hrc. fold best in Hrc. subst b.
  destruct (canvas s) as [c|]; simpl; repeat split; auto.
Qed.

(** C7, as the code has it.  For a session attached to a video of the
    page, a storage change of whatever content keeps the ring: buffer,
    [frameCount], [lastDrawnFrameIndex] and capacity of the stored object
    are unchanged.  When the change leaves a positive delay d in force, not
    paused, it reaches the session as one assignment: the listener
    completes normally, the object is the old one with [frameDelayMs] = d,
    and the video still carries it; the next playback cycle completes
    normally, keeps the buffer, and selects with target now - d:
    [lastDrawnFrameIndex] stays or becomes
    [_findBestFrameToShow buffer (now - d)], and becomes it whenever that
    slot differs from the last drawn one, has pixels and the overlay
    exists. *)
Theorem positive_delay_change_updates_frameDelayMs_in_place
    (w : World) (vid : vref) (v : Video) (r : ref) (s : FrameSync)
    (changes : Changes) (now : Z) :
  videos w !! vid = Some v ->
  frameSyncObj v = Some r ->
  heap w !! r = Some s ->
  video s = vid ->
  let d := delay_after changes w in
  let w' := exec (onChanged changes sync) w in
  let best := _findBestFrameToShow (buffer s) (now - d) in
  (exists s',
     heap w' !! r = Some s' /\
     buffer s' = buffer s /\
     frameCount s' = frameCount s /\
     lastDrawnFrameIndex s' = lastDrawnFrameIndex s /\
     maxBuffer s' = maxBuffer s) /\
  (0 < d -> paused_after changes w = false ->
   completion (onChanged changes sync) w = Normal tt /\
   heap w' !! r = Some (set_frameDelayMs d s) /\
   videos w' !! vid = Some v /\
   frameDelayMs (set_frameDelayMs d s) = d /\
   buffer (set_frameDelayMs d s) = buffer s /\
   frameCount (set_frameDelayMs d s) = frameCount s /\
   lastDrawnFrameIndex (set_frameDelayMs d s) = lastDrawnFrameIndex s /\
   maxBuffer (set_frameDelayMs d s) = maxBuffer s /\
   active (set_frameDelayMs d s) = active s /\
   canvas (set_frameDelayMs d s) = canvas s /\
   resizeObserver (set_frameDelayMs d s) = resizeObserver s /\
   completion (_drawFrame r now) w' = Normal tt /\
   (active s = true -> paused v = false ->
    exists s',
      heap (exec (_drawFrame r now) w') !! r = Some s' /\
      buffer s' = buffer s /\
      frameCount s' = frameCount s /\
      frameDelayMs s' = d /\
      (lastDrawnFrameIndex s' = lastDrawnFrameIndex s \/
       lastDrawnFrameIndex s' = best) /\
      (forall slot,
         best <> lastDrawnFrameIndex s ->
         index (buffer s) (Some best) = Some slot ->
         0 < frame_width slot -> 0 < frame_height slot ->
         canvas s <> None ->
         lastDrawnFrameIndex s' = best))).
Proof.
  intros Hv Hlink Hs Hvid d w' best.
  split; [by apply onChanged_keeps_the_ring|].
  intros Hd Hp.
  set (w1 := set_isPaused (paused_after changes w)
               (set_currentFrameDelay (delay_after changes w) w)).
  assert (onChanged changes sync w = updateSyncForVideos w1) as Hrun.
  { unfold onChanged, w1, delay_after, paused_after.
    destruct (frameDelay changes) as [nv|], (pauseDelay changes) as [np|];
      unfold bind, modify, ret; simpl; f_equal; by destruct w. }
  destruct (updateSyncForVideos_updates w1 vid v r s) as (Hc & Hr & Hv' & _);
    try done.
  unfold completion, exec in *. subst w'. rewrite Hrun.
  change (currentFrameDelay w1) with d in Hr.
  split; [done|]. split; [done|]. split; [done|].
  do 8 (split; [done|]).
  split.
  { eapply (_drawFrame_never_throws r); [exact Hr|]. simpl. by rewrite Hvid. }
  intros Ha Hpl.
  erewrite (_drawFrame_run r _ (set_frameDelayMs d s) v); try done;
    [|simpl; by rewrite Hvid].
  simpl. exists (drawn now (set_frameDelayMs d s)).
  split. { apply list_lookup_insert_eq. by eapply lookup_lt_Some. }
  destruct (drawn_fields now (set_frameDelayMs d s)) as (? & ? & ? & ? & ?).
  done.
Qed.

Lemma positive_delay_change_updates_frameDelayMs_in_place_witness :
  heap (exec (onChanged (mkChanges (Some (Some 250)) None) sync) playback_scenario)
    !! 0%nat = Some (set_frameDelayMs 250 playback_session) /\
  exists s',
    heap (exec (_drawFrame 0%nat 400)
            (exec (onChanged (mkChanges (Some (Some 250)) None) sync)
               playback_scenario)) !! 0%nat = Some s' /\
    lastDrawnFrameIndex s' = _findBestFrameToShow (buffer playback_session) (400 - 250).
Proof.
  pose proof (positive_delay_change_updates_frameDelayMs_in_place
    playback_scenario 0%nat playback_video 0%nat playback_session
    (mkChanges (Some (Some 250)) None) 400
    eq_refl eq_refl eq_refl eq_refl) as H.
  cbv zeta in H. destruct H as [_ H].
  destruct (H eq_refl eq_refl)
    as (_ & H1 & _ & _ & _ & _ & _ & _ & _ & _ & _ & _ & H2).
  split; [exact H1|].
  destruct (H2 eq_refl eq_refl) as (s' & Hs' & _ & _ & _ & _ & Hbest).
  exists s'. split; [exact Hs'|].
  apply (Hbest (mkBufferFrame 0%nat 640 360 (Some 1) 120)).
  - discriminate.
  - reflexivity.
  - reflexivity.
  - reflexivity.
  - discriminate.
Defined.

(** C7 as stated fails for a change of the delay to 0: the session of the
    playback scenario (delay 100) is deactivated, and its [frameDelayMs] is
    not assigned. *)
Lemma delay_change_to_0_refuted :
  heap (exec (onChanged (mkChanges (Some (Some 0)) None) sync) playback_scenario)
    !! 0%nat <> Some (set_frameDelayMs 0 playback_session) /\
  frameDelayMs <$>
    heap (exec (onChanged (mkChanges (Some (Some 0)) None) sync) playback_scenario)
    !! 0%nat = Some 100 /\
  active <$>
    heap (exec (onChanged (mkChanges (Some (Some 0)) None) sync) playback_scenario)
    !! 0%nat = Some false.
Proof. vm_compute. split; [discriminate|done]. Qed.

End DelayChange.

(** ** Exceptions *)

Section Exceptions.

(** In a session whose ring is in order and has a positive capacity the
    next slot exists. *)
Lemma session_at_slot w this v s :
  session_at w this v s -> 0 < maxBuffer s -> 0 <= frameCount s ->
  exists slot,
    index (buffer s) (nextFrameIndex s) = Some slot /\
    videos w !! bf_video slot = Some v.
Proof.
  intros [Hs Hv Hlen Hall] HC Hcount.
  pose proof (Z.mod_pos_bound (frameCount s) (maxBuffer s) HC) as Hb.
  destruct (lookup_lt_is_Some_2 (buffer s)
              (Z.to_nat (frameCount s mod maxBuffer s))) as [slot Hslot]; [lia|].
  exists slot. split.
  - unfold nextFrameIndex, js_rem.
    destruct (Z.eqb_spec (maxBuffer s) 0); [lia|].
    rewrite Z.rem_mod_nonneg by lia. simpl.
    destruct (Z.ltb_spec (frameCount s mod maxBuffer s) 0); [lia|done].
  - rewrite Forall_lookup in Hall. by rewrite (Hall _ _ Hslot).
Qed.

(** A capture cycle of such a session does not throw, whatever the gate,
    the picture size and the delay are. *)
Lemma _captureFrame_does_not_throw w this v s now :
  session_at w this v s -> 0 < maxBuffer s -> 0 <= frameCount s ->
  completion (_captureFrame this now) w = Normal tt.
Proof.
  intros Hat HC Hcount.
  destruct (session_at_slot w this v s Hat HC Hcount) as (slot & Hslot & Hsv).
  destruct Hat as [Hs Hv _ _]. unfold completion.
  destruct (negb (active s) || paused v || hidden w) eqn:Hg.
  - by erewrite _captureFrame_gated.
  - apply orb_false_elim in Hg as [Hg Hh].
    apply orb_false_elim in Hg as [Ha Hp]. apply negb_false_iff in Ha.
    by erewrite _captureFrame_captures.
Qed.

(** A constructor call with a capacity below 2 writes the error and leaves
    an object with capacity 0 and no slots. *)
Lemma new_FrameSync_undersized w vid v n d :
  videos w !! vid = Some v -> frameSyncObj v = None -> n < 2 ->
  new_FrameSync vid n d w =
    (Normal (length (heap w)),
     mkWorld (<[vid := set_frameSyncObj (Some (length (heap w))) v]> (videos w))
       (heap w ++ [mkFrameSync vid [] 0 d false 0 (-1) None None])
       (hidden w) (console w ++ [Error_maxBuffer_at_least_2])
       (animationFrames w) (currentFrameDelay w) (isPaused w)).
Proof.
  intros Hv Hlink Hn. unfold new_FrameSync.
  erewrite bind_Normal by by apply readVideo_Some.
  rewrite Hlink. erewrite bind_Normal by reflexivity.
  erewrite bind_Normal by by apply SetMaxBuffer_rejects.
  erewrite bind_Normal by apply updVideo_run.
  simpl. by rewrite (alter_Some _ _ _ _ Hv).
Qed.


(** The same for every capacity below 2, every delay and every page. *)
Lemma capture_cycle_throws_whenever_capacity_below_2 w vid v n d now :
  videos w !! vid = Some v -> frameSyncObj v = None ->
  paused v = false -> hidden w = false -> n < 2 ->
  completion (this <- new_FrameSync vid n d;
              Activate this ;;
              _captureFrame this now) w = Thrown TypeError.
Proof.
  intros Hv Hlink Hp Hh Hn. unfold completion.
  assert (vid < length (videos w))%nat as Hlt by by eapply lookup_lt_Some.
  erewrite bind_Normal by by apply new_FrameSync_undersized.
  erewrite bind_Normal; last first.
  { apply (Activate_run _ _ (set_frameSyncObj (Some (length (heap w))) v)
             (mkFrameSync vid [] 0 d false 0 (-1) None None)); try done.
    constructor; simpl; try done.
    - apply lookup_last.
    - by apply list_lookup_insert_eq. }
  unfold _captureFrame. simpl.
  erewrite bind_Normal; last first.
  { apply readObj_Some. simpl. rewrite insert_last. apply lookup_last. }
  erewrite bind_Normal; last first.
  { apply readVideo_Some. simpl. unfold activated, resized. simpl.
    destruct (_ || _); simpl; by apply list_lookup_insert_eq. }
  erewrite bind_Normal by reflexivity.
  unfold activated, resized. simpl.
  destruct ((videoWidth v =? 0) || (videoHeight v =? 0)); simpl;
    rewrite Hp, Hh; done.
Qed.

End Exceptions.


(** * Further properties of the code *)

(** ** Any sequence of calls on a session *)

Section Calls.

Variable this : ref.



Lemma Activate_run_active w s :
  heap w !! this = Some s -> active s = true ->
  Activate this w = (Normal tt, w).
Proof.
  intros Hs Ha. unfold Activate.
  erewrite bind_Normal by by apply readObj_Some. by rewrite Ha.
Qed.

Lemma Activate_run_overlay w s c :
  heap w !! this = Some s -> active s = false -> canvas s = Some c ->
  Activate this w =
    (Normal tt,
     mkWorld (videos w) (<[this := set_active true s]> (heap w)) (hidden w)
       (console w)
       (animationFrames w ++ [captureFrameFunc this; drawFrameFunc this])
       (currentFrameDelay w) (isPaused w)).
Proof.
  intros Hs Ha Hc. unfold Activate.
  assert (this < length (heap w))%nat as Hlt by by eapply lookup_lt_Some.
  erewrite bind_Normal by by apply readObj_Some.
  rewrite Ha.
  erewrite bind_Normal by by apply updObj_Some.
  erewrite bind_Normal; last first.
  { unfold _createCanvasOverlay.
    erewrite bind_Normal by (apply readObj_Some; by eapply heap_insert_lookup).
    change (canvas (set_active true s)) with (canvas s). rewrite Hc.
    reflexivity. }
  unfold requestAnimationFrame, modify, bind. simpl.
  rewrite <- app_assoc. done.
Qed.

Lemma drawn_static now s :
  video (drawn now s) = video s /\
  maxBuffer (drawn now s) = maxBuffer s /\
  active (drawn now s) = active s /\
  resizeObserver (drawn now s) = resizeObserver s.
Proof.
  unfold drawn. destruct (render_candidate now s) as [[b slot]|]; [|done].
  by destruct (canvas s).
Qed.

Lemma resized_static v s :
  video (resized v s) = video s /\
  maxBuffer (resized v s) = maxBuffer s /\
  frameCount (resized v s) = frameCount s /\
  lastDrawnFrameIndex (resized v s) = lastDrawnFrameIndex s /\
  frameDelayMs (resized v s) = frameDelayMs s /\
  active (resized v s) = active s /\
  map captureTs (buffer (resized v s)) = map captureTs (buffer s) /\
  map bf_video (buffer (resized v s)) = map bf_video (buffer s) /\
  length (buffer (resized v s)) = length (buffer s).
Proof.
  unfold resized. destruct (canvas s); [|done].
  destruct (_ || _); [done|]. simpl.
  rewrite !map_map, length_map. done.
Qed.



Lemma forEach_keeps {A} (I : World -> Prop) (f : A -> JS unit) l :
  (forall x w, I w -> completion (f x) w = Normal tt /\ I (exec (f x) w)) ->
  forall w, I w ->
    completion (forEach l f) w = Normal tt /\ I (exec (forEach l f) w).
Proof.
  intros Hstep. induction l as [|x l IH]; intros w HI; simpl; [done|].
  destruct (Hstep x w HI) as [Hc HI']. unfold completion, exec in *.
  destruct (f x w) as [r w1] eqn:Hrun. simpl in Hc, HI'. subst r.
  erewrite bind_Normal by exact Hrun. by apply IH.
Qed.

End Calls.

Section CallSequences.



End CallSequences.

(** ** More on the playback cycle *)

Section PlaybackMore.

Lemma drawn_console now s :
  draw_errors now s = [] \/
  (draw_errors now s = [Error_drawing_frame TypeError] /\ canvas s = None /\
   drawn now s = s).
Proof.
  unfold draw_errors, drawn.
  destruct (render_candidate now s) as [[b slot]|], (canvas s) as [c|];
    auto.
Qed.

(** X2.  A playback cycle never throws and never touches the ring: for
    every session and every state of its video it completes normally,
    schedules itself exactly once more, leaves the videos, the other
    objects, and the session's buffer, [frameCount], [frameDelayMs],
    [maxBuffer] and [active] as they were, and writes to the console at
    most the one caught render failure, which occurs only while the overlay
    is missing and then leaves [lastDrawnFrameIndex] unchanged. *)
Theorem playback_cycle_never_throws_nor_writes_the_ring
    (this : ref) (w : World) (s : FrameSync) (v : Video) (now : Z) :
  heap w !! this = Some s ->
  videos w !! video s = Some v ->
  completion (_drawFrame this now) w = Normal tt /\
  videos (exec (_drawFrame this now) w) = videos w /\
  animationFrames (exec (_drawFrame this now) w)
    = animationFrames w ++ [drawFrameFunc this] /\
  (forall r, r <> this -> heap (exec (_drawFrame this now) w) !! r = heap w !! r) /\
  exists s',
    heap (exec (_drawFrame this now) w) !! this = Some s' /\
    buffer s' = buffer s /\
    frameCount s' = frameCount s /\
    frameDelayMs s' = frameDelayMs s /\
    maxBuffer s' = maxBuffer s /\
    active s' = active s /\
    (console (exec (_drawFrame this now) w) = console w \/
     (console (exec (_drawFrame this now) w)
        = console w ++ [Error_drawing_frame TypeError] /\
      canvas s = None /\
      lastDrawnFrameIndex s' = lastDrawnFrameIndex s)).
Proof.
  intros Hs Hv. unfold completion, exec.
  assert (this < length (heap w))%nat as Hlt by by eapply lookup_lt_Some.
  destruct (negb (active s) || paused v) eqn:Hg.
  - erewrite _drawFrame_gated by done. simpl.
    do 4 (split; [done|]). exists s. repeat split; auto.
  - apply orb_false_elim in Hg as [Ha Hp]. apply negb_false_iff in Ha.
    erewrite _drawFrame_run by done. simpl.
    do 3 (split; [done|]).
    split. { intros r Hr. by apply list_lookup_insert_ne. }
    exists (drawn now s).
    destruct (drawn_fields now s) as (Hd1 & Hd2 & Hd5 & _).
    destruct (drawn_static now s) as (Hd3 & Hd4 & Hd6 & _).
    split; [by apply list_lookup_insert_eq|].
    do 5 (split; [done|]).
    destruct (drawn_console now s) as [He|(He & Hc & Hsame)].
    + left. by rewrite He, app_nil_r.
    + right. by rewrite He, Hsame.
Qed.

Lemma playback_cycle_never_throws_nor_writes_the_ring_witness :
  completion (_drawFrame 0%nat 150) selection_scenario = Normal tt /\
  animationFrames (exec (_drawFrame 0%nat 150) selection_scenario)
    = animationFrames selection_scenario ++ [drawFrameFunc 0%nat].
Proof.
  destruct (playback_cycle_never_throws_nor_writes_the_ring
              0%nat selection_scenario (session_of selection_scenario 0%nat)
              (set_frameSyncObj (Some 0%nat) playing_video) 150
              eq_refl eq_refl)
    as (H1 & _ & H2 & _).
  split; [exact H1|exact H2].
Defined.

Lemma drawn_twice now s : drawn now (drawn now s) = drawn now s.
Proof.
  unfold drawn at 2 3.
  destruct (render_candidate now s) as [[b slot]|] eqn:Hrc; [|by unfold drawn; rewrite Hrc].
  destruct (canvas s) as [c|] eqn:Hc; [|by unfold drawn; rewrite Hrc, Hc].
  apply render_candidate_best in Hrc. subst b.
  unfold drawn, render_candidate. simpl.
  rewrite Z.eqb_refl, andb_false_r. done.
Qed.

(** X3.  A second playback cycle at the same time draws nothing anew: the
    store after two cycles at [now] is the store after one (the second
    finds the selected slot already drawn, or fails as the first did). *)
Theorem playback_cycle_twice_draws_once
    (this : ref) (w : World) (s : FrameSync) (v : Video) (now : Z) :
  heap w !! this = Some s ->
  videos w !! video s = Some v ->
  completion (_drawFrame this now ;; _drawFrame this now) w = Normal tt /\
  heap (exec (_drawFrame this now ;; _drawFrame this now) w)
    = heap (exec (_drawFrame this now) w) /\
  videos (exec (_drawFrame this now ;; _drawFrame this now) w) = videos w.
Proof.
  intros Hs Hv. unfold completion, exec.
  assert (this < length (heap w))%nat as Hlt by by eapply lookup_lt_Some.
  destruct (negb (active s) || paused v) eqn:Hg.
  - erewrite bind_Normal by by eapply _drawFrame_gated.
    erewrite !_drawFrame_gated by done. done.
  - apply orb_false_elim in Hg as [Ha Hp]. apply negb_false_iff in Ha.
    erewrite bind_Normal by by eapply _drawFrame_run.
    destruct (drawn_static now s) as (Hd3 & _ & Hd6 & _).
    erewrite (_drawFrame_run this _ (drawn now s) v); simpl;
      [|by apply list_lookup_insert_eq|by rewrite Hd3|by rewrite Hd6|done].
    erewrite _drawFrame_run by done. simpl.
    by rewrite list_insert_insert_eq, drawn_twice.
Qed.

Lemma playback_cycle_twice_draws_once_witness :
  heap (exec (_drawFrame 0%nat 150 ;; _drawFrame 0%nat 150) selection_scenario)
    = heap (exec (_drawFrame 0%nat 150) selection_scenario).
Proof.
  exact (proj1 (proj2 (playback_cycle_twice_draws_once 0%nat selection_scenario
    (session_of selection_scenario 0%nat)
    (set_frameSyncObj (Some 0%nat) playing_video) 150 eq_refl eq_refl))).
Defined.

End PlaybackMore.

(** ** Activation, deactivation and the idle loops *)

Section Lifecycle.

(** X4.  [Activate()] twice is [Activate()] once: for every session with a
    ring in order, active or not, the second call completes normally and
    changes nothing, so there is one overlay and one pair of scheduled
    loops. *)
Theorem Activate_twice_is_Activate_once
    (this : ref) (w : World) (v : Video) (s : FrameSync) :
  session_at w this v s ->
  completion (Activate this ;; Activate this) w = Normal tt /\
  exec (Activate this ;; Activate this) w = exec (Activate this) w /\
  (exists s', heap (exec (Activate this) w) !! this = Some s' /\ active s' = true).
Proof.
  intros Hat. pose proof Hat as [Hs Hv _ _]. unfold completion, exec.
  assert (this < length (heap w))%nat as Hlt by by eapply lookup_lt_Some.
  destruct (active s) eqn:Ha; [|destruct (canvas s) as [c|] eqn:Hc].
  - erewrite bind_Normal by by eapply Activate_run_active.
    rewrite (Activate_run_active this w s Hs Ha). simpl.
    do 2 (split; [done|]). by exists s.
  - erewrite bind_Normal by by eapply Activate_run_overlay.
    rewrite (Activate_run_overlay this w s c Hs Ha Hc).
    erewrite Activate_run_active; simpl;
      [|by apply list_lookup_insert_eq|done].
    do 2 (split; [done|]). exists (set_active true s).
    split; [by apply list_lookup_insert_eq|done].
  - erewrite bind_Normal by by eapply Activate_run.
    rewrite (Activate_run this w v s Hat Ha Hc).
    destruct (activated_fields v s) as (Hact & _).
    erewrite Activate_run_active; simpl;
      [|by apply list_lookup_insert_eq|done].
    do 2 (split; [done|]). exists (activated v s).
    split; [by apply list_lookup_insert_eq|done].
Qed.

Lemma Activate_twice_is_Activate_once_witness :
  exec (Activate 0%nat ;; Activate 0%nat) (exec (Deactivate 0%nat) playback_scenario)
    = exec (Activate 0%nat) (exec (Deactivate 0%nat) playback_scenario).
Proof.
  refine (proj1 (proj2 (Activate_twice_is_Activate_once 0%nat
    (exec (Deactivate 0%nat) playback_scenario)
    (set_frameSyncObj None playback_video) (deactivated playback_session) _))).
  constructor; try reflexivity. repeat constructor.
Defined.

(** X5.  [Deactivate()] does not stop the loops, it idles them: after it,
    every capture or playback cycle of the session, at any time and in any
    number, completes normally and changes nothing but the list of
    scheduled callbacks, to which each cycle adds itself once. *)
Theorem loops_idle_after_Deactivate
    (this : ref) (w : World) (v : Video) (s : FrameSync)
    (cycles : list (Callback * Z)) :
  heap w !! this = Some s ->
  videos w !! video s = Some v ->
  Forall (fun c => fst c = captureFrameFunc this \/ fst c = drawFrameFunc this)
    cycles ->
  completion (Deactivate this ;; forEach cycles (fun c => cycle (fst c) (snd c))) w
    = Normal tt /\
  exec (Deactivate this ;; forEach cycles (fun c => cycle (fst c) (snd c))) w =
    set_animationFrames (animationFrames w ++ map fst cycles)
      (exec (Deactivate this) w).
Proof.
  intros Hs Hv Hcycles. unfold completion, exec.
  rewrite !(bind_Normal _ _ _ _ _ (Deactivate_run w this s Hs)).
  rewrite (Deactivate_run w this s Hs). simpl snd.
  assert (this < length (heap w))%nat as Hlt by by eapply lookup_lt_Some.
  set (w1 := mkWorld (alter (set_frameSyncObj None) (video s) (videos w))
               (<[this := deactivated s]> (heap w)) (hidden w) (console w)
               (animationFrames w) (currentFrameDelay w) (isPaused w)).
  assert (forall q,
    forEach cycles (fun c => cycle (fst c) (snd c)) (set_animationFrames q w1)
    = (Normal tt, set_animationFrames (q ++ map fst cycles) w1)) as Hloop.
  { induction cycles as [|[cb now] cycles IH]; intros q; simpl.
    - by rewrite app_nil_r.
    - apply Forall_cons in Hcycles as [[Hcb|Hcb] Hcycles]; simpl in Hcb; subst cb;
        simpl cycle.
      + erewrite bind_Normal; last first.
        { eapply (_captureFrame_gated this _ (deactivated s)
                    (set_frameSyncObj None v));
            simpl; [by apply list_lookup_insert_eq| |done].
          by rewrite list_lookup_alter_eq, Hv. }
        simpl. change (set_animationFrames ?a (set_animationFrames ?b w1))
          with (set_animationFrames a w1).
        rewrite (IH Hcycles), <- app_assoc. done.
      + erewrite bind_Normal; last first.
        { eapply (_drawFrame_gated this _ (deactivated s)
                    (set_frameSyncObj None v));
            simpl; [by apply list_lookup_insert_eq| |done].
          by rewrite list_lookup_alter_eq, Hv. }
        simpl. change (set_animationFrames ?a (set_animationFrames ?b w1))
          with (set_animationFrames a w1).
        rewrite (IH Hcycles), <- app_assoc. done. }
  specialize (Hloop (animationFrames w)).
  change (set_animationFrames (animationFrames w) w1) with w1 in Hloop.
  rewrite Hloop. done.
Qed.

Lemma loops_idle_after_Deactivate_witness :
  exec (Deactivate 0%nat ;;
        forEach [(captureFrameFunc 0%nat, 200); (drawFrameFunc 0%nat, 200);
                 (captureFrameFunc 0%nat, 216)]
          (fun c => cycle (fst c) (snd c)))
    playback_scenario
  = set_animationFrames
      (animationFrames playback_scenario ++
       [captureFrameFunc 0%nat; drawFrameFunc 0%nat; captureFrameFunc 0%nat])
      (exec (Deactivate 0%nat) playback_scenario).
Proof.
  refine (proj2 (loops_idle_after_Deactivate 0%nat playback_scenario
    playback_video playback_session
    [(captureFrameFunc 0%nat, 200); (drawFrameFunc 0%nat, 200);
     (captureFrameFunc 0%nat, 216)]
    eq_refl eq_refl _)).
  repeat first
    [ apply Forall_nil_2
    | apply Forall_cons_2; [first [left; reflexivity | right; reflexivity]|] ].
Defined.

(** X6.  [Deactivate()] twice is [Deactivate()] once, also on a session that
    was never activated. *)
Theorem Deactivate_twice_is_Deactivate_once
    (this : ref) (w : World) (s : FrameSync) :
  heap w !! this = Some s ->
  completion (Deactivate this ;; Deactivate this) w = Normal tt /\
  exec (Deactivate this ;; Deactivate this) w = exec (Deactivate this) w.
Proof.
  intros Hs. unfold completion, exec.
  assert (this < length (heap w))%nat as Hlt by by eapply lookup_lt_Some.
  rewrite (bind_Normal _ _ _ _ _ (Deactivate_run w this s Hs)).
  erewrite Deactivate_run by (simpl; by apply list_lookup_insert_eq).
  rewrite (Deactivate_run w this s Hs). simpl.
  split; [done|]. f_equal.
  - rewrite list_alter_alter_eq. apply list_alter_ext; [|done].
    by intros [].
  - by rewrite list_insert_insert_eq.
Qed.

Lemma Deactivate_twice_is_Deactivate_once_witness :
  exec (Deactivate 0%nat ;; Deactivate 0%nat) playback_scenario
    = exec (Deactivate 0%nat) playback_scenario.
Proof.
  exact (proj2 (Deactivate_twice_is_Deactivate_once 0%nat playback_scenario
    playback_session eq_refl)).
Defined.

End Lifecycle.

(** ** What the ring holds, and when overflow is reported *)

Section RingContents.

Lemma mod_distinct (a b C : Z) :
  0 < C -> b < a -> a - b < C -> a mod C <> b mod C.
Proof.
  intros HC Hlt Hsmall Heq.
  assert ((a - b) mod C = 0) as H0.
  { rewrite Zminus_mod, Heq, Z.sub_diag. by apply Z.mod_0_l, Z.neq_sym, Z.lt_neq. }
  rewrite Z.mod_small in H0 by lia. lia.
Qed.

(** The console line of a capture cycle past the gate. *)
Lemma capturing_step_console this w v C s t slot :
  capturing w this v C s -> 0 < C ->
  buffer s !! Z.to_nat (frameCount s mod C) = Some slot ->
  console (exec (_captureFrame this t) w)
    = console w ++ (if overflows s t slot then [Warn_buffer_overflow] else []).
Proof.
  intros Hc HC Hslot.
  destruct (capturing_slot this w v C s Hc HC) as (Hn & slot' & Hl & Hi & Hsv).
  rewrite Hslot in Hl. injection Hl as <-.
  destruct Hc. unfold exec. by erewrite _captureFrame_captures.
Qed.

(** After the captures [ts] on a ring that started empty: the count, the
    delay, the timestamps of the last [C] captures slot by slot, the slots
    not yet reached, and the console during the first round. *)
Lemma ring_contents this C v w s : 0 < C ->
  capturing w this v C s -> frameCount s = 0 ->
  Forall (fun f => captureTs f = 0) (buffer s) ->
  forall ts,
  completion (captures this ts) w = Normal tt /\
  exists s1,
    heap (exec (captures this ts) w) !! this = Some s1 /\
    capturing (exec (captures this ts) w) this v C s1 /\
    frameCount s1 = Z.of_nat (length ts) /\
    frameDelayMs s1 = frameDelayMs s /\
    (forall (k : nat) t, ts !! k = Some t ->
       Z.of_nat (length ts) - C <= Z.of_nat k ->
       captureTs <$> buffer s1 !! Z.to_nat (Z.of_nat k mod C) = Some t) /\
    (forall (j : nat) f, buffer s1 !! j = Some f ->
       Z.of_nat (length ts) <= Z.of_nat j -> captureTs f = 0) /\
    (Z.of_nat (length ts) <= C ->
     console (exec (captures this ts) w) = console w).
Proof.
  intros HC Hc H0 Hempty ts. induction ts as [|t ts IH] using rev_ind.
  - split; [done|]. exists s. simpl. destruct Hc as [Hh]. split; [done|].
    split; [by constructor|]. split; [done|]. split; [done|].
    split; [intros k t Hk; done|]. split; [|done].
    intros j f Hf _. rewrite Forall_lookup in Hempty. by eapply Hempty.
  - destruct IH as (Hn & s1 & Hs1 & Hc1 & Hcount & Hdelay & Hlast & Hrest & Hcons).
    destruct (capturing_slot this _ v C s1 Hc1 HC) as (Hnext & slot & Hslot & _ & _).
    destruct (capturing_step this _ v C s1 t Hc1 HC) as (Hn1 & Hh1 & Hc2).
    pose proof (capturing_step_console this _ v C s1 t slot Hc1 HC Hslot) as Hcon.
    assert (Z.of_nat (length (buffer s1)) = C) as Hlen by by destruct Hc1.
    assert (0 < videoWidth v /\ 0 < videoHeight v) as [Hvw Hvh] by by destruct Hc1.
    unfold completion, exec in *. rewrite captures_snoc.
    destruct (captures this ts w) as [r w1] eqn:Hrun. simpl in *. subst r.
    erewrite bind_Normal by exact Hrun.
    split; [done|]. exists (captured v t s1).
    split; [done|]. split; [done|].
    rewrite length_app. simpl length.
    split; [simpl; lia|]. split; [done|].
    assert (Z.to_nat (default 0 (nextFrameIndex s1))
            = Z.to_nat (Z.of_nat (length ts) mod C)) as Hidx.
    { rewrite Hnext. simpl. by rewrite Hcount. }
    pose proof (Z.mod_pos_bound (Z.of_nat (length ts)) C HC) as Hb.
    split; [|split].
    + intros k t' Hk Hge. unfold captured. simpl buffer. rewrite Hidx.
      apply lookup_app_Some in Hk as [Hk|[Hkge Hk]].
      * assert (k < length ts)%nat as Hklt by by eapply lookup_lt_Some.
        rewrite list_lookup_alter_ne.
        -- apply Hlast; [done|lia].
        -- intros Heq. apply (mod_distinct (Z.of_nat (length ts)) (Z.of_nat k) C);
             try lia.
           pose proof (Z.mod_pos_bound (Z.of_nat k) C HC). lia.
      * apply list_lookup_singleton_Some in Hk as [Hk <-].
        replace k with (length ts) by lia.
        rewrite list_lookup_alter_eq.
        rewrite Hcount in Hslot. rewrite Hslot. simpl.
        by rewrite CaptureFrame_sized.
    + intros j f Hf Hge. unfold captured in Hf. simpl buffer in Hf.
      rewrite Hidx in Hf.
      assert (j < length (buffer s1))%nat as Hj.
      { apply lookup_lt_Some in Hf. by rewrite length_alter in Hf. }
      rewrite list_lookup_alter_ne in Hf.
      * eapply Hrest; [done|lia].
      * rewrite Z.mod_small by lia. lia.
    + intros Hle. rewrite Hcon. rewrite Hcons by lia.
      assert (captureTs slot = 0) as Hz.
      { apply (Hrest (Z.to_nat (frameCount s1 mod C))); [done|].
        rewrite Hcount, Z.mod_small by lia. lia. }
      unfold overflows. rewrite Hz. simpl. by rewrite app_nil_r.
Qed.

(** X7.  During the first round of a ring that starts empty no overflow is
    reported, however small the gaps between the captures and however
    large the delay: up to C capture cycles past the gate, at any
    timestamps, complete normally and leave the console as it was. *)
Theorem no_overflow_diagnostic_before_the_ring_wraps
    (this : ref) (w : World) (v : Video) (C : Z) (s : FrameSync) (ts : list Z) :
  capturing w this v C s ->
  frameCount s = 0 ->
  Forall (fun f => captureTs f = 0) (buffer s) ->
  Z.of_nat (length ts) <= C ->
  completion (captures this ts) w = Normal tt /\
  console (exec (captures this ts) w) = console w.
Proof.
  intros Hc H0 Hempty Hle.
  destruct (Z.le_gt_cases C 0) as [HC|HC].
  - destruct ts; simpl in *; [done|lia].
  - destruct (ring_contents this C v w s ltac:(lia) Hc H0 Hempty ts)
      as (Hn & s1 & _ & _ & _ & _ & _ & _ & Hcons).
    split; [done|by apply Hcons].
Qed.

Lemma no_overflow_diagnostic_before_the_ring_wraps_witness :
  console (exec (captures 0%nat [1; 2; 3; 4]) activated_world)
    = console activated_world.
Proof.
  assert (capturing activated_world 0%nat activated_video 4 activated_session)
    as Hc by (constructor; try reflexivity; repeat constructor).
  refine (proj2 (no_overflow_diagnostic_before_the_ring_wraps
    0%nat activated_world activated_video 4 activated_session [1; 2; 3; 4]
    Hc eq_refl _ _)).
  - repeat constructor.
  - simpl. lia.
Defined.



End RingContents.

(** ** Resize, repeated construction, exact matches *)

Section Geometry.

(** X9.  [Resize] is a change of geometry only.  On a session with a ring
    in order it completes normally and keeps [frameCount],
    [lastDrawnFrameIndex], [frameDelayMs], [active] and the timestamp of
    every slot.  Without an overlay, or while the video reports a zero
    width or height, it changes nothing at all; otherwise the overlay and
    every slot take the size of the video and are blank until drawn
    again. *)
Theorem Resize_changes_geometry_only
    (this : ref) (w : World) (v : Video) (s : FrameSync) :
  session_at w this v s ->
  completion (Resize this) w = Normal tt /\
  exists s',
    heap (exec (Resize this) w) !! this = Some s' /\
    frameCount s' = frameCount s /\
    lastDrawnFrameIndex s' = lastDrawnFrameIndex s /\
    frameDelayMs s' = frameDelayMs s /\
    active s' = active s /\
    map captureTs (buffer s') = map captureTs (buffer s) /\
    (canvas s = None \/ videoWidth v = 0 \/ videoHeight v = 0 ->
     exec (Resize this) w = w) /\
    (canvas s <> None -> videoWidth v <> 0 -> videoHeight v <> 0 ->
     canvas s' = Some (mkCanvas (videoWidth v) (videoHeight v) None) /\
     Forall (fun f => frame_width f = videoWidth v /\
                      frame_height f = videoHeight v /\
                      frame_image f = None) (buffer s')).
Proof.
  intros Hat. pose proof Hat as [Hs Hv _ _]. unfold completion, exec.
  rewrite (Resize_run this w v s Hat). simpl. split; [done|].
  exists (resized v s).
  destruct (resized_static v s) as (_ & _ & H1 & H2 & H3 & H4 & H5 & _).
  split; [apply list_lookup_insert_eq; by eapply lookup_lt_Some|].
  do 5 (split; [done|]). split.
  - intros Hnone. unfold resized.
    assert (match canvas s with
            | Some _ => if (videoWidth v =? 0) || (videoHeight v =? 0) then s
                        else set_buffer (map (BufferFrame_Resize v) (buffer s))
                               (set_canvas (Some (mkCanvas (videoWidth v)
                                  (videoHeight v) None)) s)
            | None => s
            end = s) as ->.
    { destruct (canvas s); [|done].
      destruct Hnone as [?|[Hz|Hz]]; [done| |]; rewrite Hz; simpl; [done|].
      by rewrite orb_true_r. }
    by rewrite list_insert_id, set_heap_id.
  - intros Hc Hw Hh. unfold resized.
    destruct (canvas s) as [c|]; [|done].
    destruct (Z.eqb_spec (videoWidth v) 0); [done|].
    destruct (Z.eqb_spec (videoHeight v) 0); [done|].
    simpl. split; [done|]. apply Forall_forall. intros f Hf.
    apply list_elem_of_In, in_map_iff in Hf as (g & <- & _). done.
Qed.

Lemma Resize_changes_geometry_only_witness :
  exists s',
    heap (exec (Resize 0%nat) playback_scenario) !! 0%nat = Some s' /\
    map captureTs (buffer s') = [120; 30; 60; 90] /\
    frameCount s' = 5.
Proof.
  assert (session_at playback_scenario 0%nat playback_video playback_session)
    as Hat by (constructor; try reflexivity; repeat constructor).
  destruct (Resize_changes_geometry_only 0%nat playback_scenario playback_video
              playback_session Hat) as (_ & s' & H1 & H2 & _ & _ & _ & H3 & _).
  exists s'. split; [exact H1|]. split; [exact H3|exact H2].
Defined.

Lemma new_FrameSync_existing w vid v existing n d :
  videos w !! vid = Some v -> frameSyncObj v = Some existing ->
  new_FrameSync vid n d w =
    (Normal existing, set_heap (alter (set_frameDelayMs d) existing (heap w)) w).
Proof.
  intros Hv Hlink. unfold new_FrameSync.
  erewrite bind_Normal by by apply readVideo_Some.
  by rewrite Hlink.
Qed.

(** X10.  Constructing twice for one video builds one object.  For a video
    without a session and a capacity of at least 2, the first [new
    FrameSync] allocates the object and links it to the video; a second
    [new FrameSync] for the same video returns the same reference and adds
    no object, and of its arguments only the delay has an effect: the
    capacity and the buffer stay those of the first construction. *)
Theorem constructing_twice_builds_one_session
    (w : World) (vid : vref) (v : Video) (n d n' d' : Z) :
  videos w !! vid = Some v ->
  frameSyncObj v = None ->
  2 <= n ->
  (a <- new_FrameSync vid n d; b <- new_FrameSync vid n' d'; ret (a, b)) w =
    (Normal (length (heap w), length (heap w)),
     mkWorld (<[vid := set_frameSyncObj (Some (length (heap w))) v]> (videos w))
       (heap w ++ [set_frameDelayMs d' (constructed vid v n d)])
       (hidden w) (console w) (animationFrames w)
       (currentFrameDelay w) (isPaused w)).
Proof.
  intros Hv Hlink Hn.
  assert (vid < length (videos w))%nat as Hlt by by eapply lookup_lt_Some.
  erewrite bind_Normal by by apply new_FrameSync_fresh.
  erewrite bind_Normal; last first.
  { eapply (new_FrameSync_existing _ vid); simpl.
    - by apply list_lookup_insert_eq.
    - done. }
  unfold ret. simpl. f_equal. f_equal.
  rewrite (alter_Some _ _ _ _ (lookup_last _ _)). by rewrite insert_last.
Qed.

Lemma constructing_twice_builds_one_session_witness :
  completion (a <- new_FrameSync 0%nat 4 100; b <- new_FrameSync 0%nat 1 250; ret (a, b))
    (page [playing_video]) = Normal (0%nat, 0%nat).
Proof.
  unfold completion.
  rewrite (constructing_twice_builds_one_session (page [playing_video]) 0%nat
             playing_video 4 100 1 250 eq_refl eq_refl ltac:(lia)).
  reflexivity.
Defined.

(** X11.  A buffered frame whose timestamp is exactly the target wins the
    selection: when some slot holds the non-zero timestamp [targetTs],
    [_findBestFrameToShow] returns the index of a slot holding that
    timestamp, and no lower slot holds it. *)
Theorem exact_timestamp_is_selected
    (buffer : list BufferFrame) (targetTs : Z) (j : nat) (g : BufferFrame) :
  buffer !! j = Some g ->
  captureTs g = targetTs ->
  targetTs <> 0 ->
  let r := _findBestFrameToShow buffer targetTs in
  0 <= r <= Z.of_nat j /\
  captureTs <$> buffer !! Z.to_nat r = Some targetTs /\
  (forall (i : nat) f, buffer !! i = Some f -> captureTs f = targetTs ->
     r <= Z.of_nat i).
Proof.
  intros Hg Hts Hne r.
  pose proof (_findBestFrameToShow_selects targetTs buffer) as Hsel.
  fold r in Hsel. clearbody r.
  destruct Hsel as [[_ Hall]|(Hr & f & Hf & Hfne & Hmin)].
  - rewrite Forall_lookup in Hall. specialize (Hall _ _ Hg).
    unfold empty_slot in Hall. congruence.
  - assert (captureTs f = targetTs) as Hft.
    { destruct (Hmin j g Hg ltac:(congruence)) as [Hle _].
      unfold distance in Hle. rewrite Hts, Z.sub_diag in Hle. simpl in Hle. lia. }
    assert (forall (i : nat) f', buffer !! i = Some f' -> captureTs f' = targetTs ->
              r <= Z.of_nat i) as Hlow.
    { intros i f' Hf' Hft'. destruct (Hmin i f' Hf' ltac:(congruence)) as [_ Htie].
      apply Htie. unfold distance. by rewrite Hft, Hft'. }
    split; [split; [done|by eapply Hlow]|]. split; [by rewrite Hf; simpl; f_equal|done].
Qed.

Lemma exact_timestamp_is_selected_witness :
  captureTs <$> buffer playback_session
    !! Z.to_nat (_findBestFrameToShow (buffer playback_session) 90) = Some 90.
Proof.
  exact (proj1 (proj2 (exact_timestamp_is_selected (buffer playback_session) 90
    3%nat (mkBufferFrame 0%nat 640 360 (Some 1) 90) eq_refl eq_refl
    ltac:(discriminate)))).
Defined.

End Geometry.

(** ** The registry of sessions *)

Section Registry.

Lemma delay_on_true w :
  delay_on w = true -> 0 < currentFrameDelay w /\ isPaused w = false.
Proof.
  unfold delay_on. intros [H1 H2]%andb_prop.
  apply Z.ltb_lt in H1. by apply negb_true_iff in H2.
Qed.

Lemma syncVideo_deactivates w vid v o :
  videos w !! vid = Some v -> frameSyncObj v = Some o -> delay_on w = false ->
  syncVideo vid w = Deactivate o w.
Proof.
  intros Hv Hlink Hoff. unfold syncVideo.
  erewrite bind_Normal by reflexivity.
  erewrite bind_Normal by by apply readVideo_Some.
  fold (delay_on w). by rewrite Hoff, Hlink.
Qed.

Lemma syncVideo_skips w vid v :
  videos w !! vid = Some v -> frameSyncObj v = None -> delay_on w = false ->
  syncVideo vid w = (Normal tt, w).
Proof.
  intros Hv Hlink Hoff. unfold syncVideo.
  erewrite bind_Normal by reflexivity.
  erewrite bind_Normal by by apply readVideo_Some.
  fold (delay_on w). by rewrite Hoff, Hlink.
Qed.

Lemma same_ring_refl s : same_ring s s.
Proof. done. Qed.

Lemma same_ring_trans s1 s2 s3 :
  same_ring s1 s2 -> same_ring s2 s3 -> same_ring s1 s3.
Proof.
  intros (?&?&?&?&?) (?&?&?&?&?). repeat split; congruence.
Qed.

Lemma default_ring_same s s' : same_ring s s' -> default_ring s -> default_ring s'.
Proof.
  intros (?&Hm&Hb&Hc&Hl) (?&?&?&?&?). unfold default_ring.
  rewrite Hm, Hb, Hc, Hl. done.
Qed.

Lemma Forall_empty_image l l' :
  map captureTs l' = map captureTs l ->
  Forall (fun f => captureTs f = 0) l -> Forall (fun f => captureTs f = 0) l'.
Proof.
  revert l'. induction l as [|x l IH]; intros [|y l'] Hm H; simpl in Hm;
    try discriminate; [constructor|].
  injection Hm as Hy Hm. apply Forall_cons in H as [Hx H].
  constructor; [by rewrite Hy|by apply IH].
Qed.

Lemma activated_constructed_default_ring v' vid v d :
  default_ring (activated v' (constructed vid v 60 d)).
Proof.
  destruct (activated_fields v' (constructed vid v 60 d))
    as (_ & Hc & Hl & _ & Hm & _ & Hts & _).
  unfold default_ring. rewrite Hc, Hl, Hm.
  split; [done|]. split; [|split; [done|split; [done|]]].
  - apply (f_equal length) in Hts. rewrite !length_map in Hts.
    rewrite Hts. reflexivity.
  - eapply Forall_empty_image; [exact Hts|]. by apply Forall_replicate.
Qed.

(** One turn of the loop of [updateSyncForVideos]. *)
Lemma syncVideo_step w i :
  registry_ok w -> (i < length (videos w))%nat ->
  completion (syncVideo i) w = Normal tt /\
  registry_ok (exec (syncVideo i) w) /\
  currentFrameDelay (exec (syncVideo i) w) = currentFrameDelay w /\
  isPaused (exec (syncVideo i) w) = isPaused w /\
  length (videos (exec (syncVideo i) w)) = length (videos w) /\
  (length (heap w) <= length (heap (exec (syncVideo i) w)))%nat /\
  settled_at (exec (syncVideo i) w) i /\
  (forall j, j <> i -> videos (exec (syncVideo i) w) !! j = videos w !! j) /\
  (forall j, j <> i -> settled_at w j -> settled_at (exec (syncVideo i) w) j) /\
  (forall r s, heap w !! r = Some s ->
     exists s', heap (exec (syncVideo i) w) !! r = Some s' /\ same_ring s s') /\
  (forall v, videos w !! i = Some v -> frameSyncObj v = None ->
     delay_on w = true ->
     exists r s,
       frameSyncObj <$> videos (exec (syncVideo i) w) !! i = Some (Some r) /\
       (length (heap w) <= r)%nat /\
       heap (exec (syncVideo i) w) !! r = Some s /\ default_ring s).
Proof.
  intros [Hreg1 Hreg2] Hi.
  destruct (lookup_lt_is_Some_2 (videos w) i Hi) as [v Hv].
  unfold completion, exec.
  destruct (delay_on w) eqn:Hon; [destruct (delay_on_true w Hon) as [Hd Hp]|];
    destruct (frameSyncObj v) as [o|] eqn:Hlink.
  - (* the delay of the session is assigned *)
    destruct (Hreg1 i v o Hv Hlink) as (so & Hso & Hvso & Haso).
    rewrite (syncVideo_updates w i v o Hv Hlink Hd Hp). simpl.
    split; [done|]. split; [|split; [done|split; [done|split; [done|]]]].
    { split.
      - intros j vj r Hvj Hlj; simpl in Hvj |- *. destruct (Hreg1 j vj r Hvj Hlj) as (s & Hs & ? & ?).
        destruct (decide (o = r)) as [->|Hne].
        + exists (set_frameDelayMs (currentFrameDelay w) s).
          by rewrite list_lookup_alter_eq, Hs.
        + exists s. by rewrite list_lookup_alter_ne.
      - intros r s Hs Ha; simpl in Hs |- *. destruct (decide (o = r)) as [->|Hne].
        + rewrite list_lookup_alter_eq in Hs.
          destruct (heap w !! r) as [s0|] eqn:Hs0; simpl in Hs; [|done].
          injection Hs as <-. by apply (Hreg2 r s0).
        + rewrite list_lookup_alter_ne in Hs by done. by apply Hreg2. }
    split; [by rewrite length_alter|]. split.
    { intros v' Hv'. simpl in Hv'. rewrite Hv in Hv'. injection Hv' as <-.
      unfold delay_on. simpl. fold (delay_on w). rewrite Hon.
      exists o, (set_frameDelayMs (currentFrameDelay w) so).
      split; [done|]. by rewrite list_lookup_alter_eq, Hso. }
    split; [done|]. split.
    { intros j Hj Hset vj Hvj. simpl in Hvj. specialize (Hset vj Hvj).
      unfold delay_on in *. simpl. fold (delay_on w) in *. rewrite Hon in *.
      destruct Hset as (r & s & Hl & Hs & Hds).
      destruct (decide (o = r)) as [->|Hne].
      - exists r, (set_frameDelayMs (currentFrameDelay w) s).
        by rewrite list_lookup_alter_eq, Hs.
      - exists r, s. by rewrite list_lookup_alter_ne. }
    split; [|intros v' Hv'; rewrite Hv in Hv'; injection Hv' as <-; congruence].
    intros r s Hs; simpl. destruct (decide (o = r)) as [->|Hne].
    + exists (set_frameDelayMs (currentFrameDelay w) s).
      by rewrite list_lookup_alter_eq, Hs.
    + exists s. by rewrite list_lookup_alter_ne.
  - (* a session is constructed and activated *)
    rewrite (syncVideo_creates w i v Hv Hlink Hd Hp). simpl.
    set (v' := set_frameSyncObj (Some (length (heap w))) v).
    set (c := constructed i v 60 (currentFrameDelay w)).
    destruct (activated_fields v' c) as (Hact & _ & _ & Hdel & _ & Hvid & _).
    split; [done|]. split; [|split; [done|split; [done|split]]].
    { split.
      - intros j vj r Hvj Hlj; simpl in Hvj |- *. destruct (decide (j = i)) as [->|Hne].
        + rewrite list_lookup_insert_eq in Hvj by done. injection Hvj as <-.
          simpl in Hlj. injection Hlj as <-.
          exists (activated v' c). by rewrite lookup_last.
        + rewrite list_lookup_insert_ne in Hvj by done.
          destruct (Hreg1 j vj r Hvj Hlj) as (s & Hs & ? & ?).
          exists s. rewrite lookup_app_l by by eapply lookup_lt_Some. done.
      - intros r s Hs Ha; simpl in Hs |- *. apply lookup_app_Some in Hs as [Hs|[Hge Hs]].
        + destruct (Hreg2 r s Hs Ha) as (vs & Hvs & Hls).
          exists vs. rewrite list_lookup_insert_ne; [done|].
          intros Heq. rewrite <- Heq in Hvs. rewrite Hv in Hvs. congruence.
        + apply list_lookup_singleton_Some in Hs as [Hr <-].
          exists v'. rewrite Hvid. simpl.
          rewrite list_lookup_insert_eq by done. split; [done|].
          simpl. f_equal. lia. }
    { by rewrite length_insert. }
    split; [rewrite length_app; simpl; lia|]. split.
    { intros vi Hvi. simpl in Hvi. rewrite list_lookup_insert_eq in Hvi by done.
      injection Hvi as <-. unfold delay_on. simpl. fold (delay_on w). rewrite Hon.
      exists (length (heap w)), (activated v' c). by rewrite lookup_last. }
    split; [intros j Hj; by rewrite list_lookup_insert_ne|]. split.
    { intros j Hj Hset vj Hvj. simpl in Hvj.
      rewrite list_lookup_insert_ne in Hvj by done. specialize (Hset vj Hvj).
      unfold delay_on in *. simpl. fold (delay_on w) in *. rewrite Hon in *.
      destruct Hset as (r & s & Hl & Hs & Hds). exists r, s.
      rewrite lookup_app_l by by eapply lookup_lt_Some. done. }
    split.
    { intros r s Hs; simpl. exists s. rewrite lookup_app_l by by eapply lookup_lt_Some.
      done. }
    intros v0 Hv0 _ _. exists (length (heap w)), (activated v' c).
    rewrite list_lookup_insert_eq by done. simpl.
    split; [done|]. split; [done|]. split; [by apply lookup_last|].
    apply activated_constructed_default_ring.
  - (* the session is deactivated *)
    destruct (Hreg1 i v o Hv Hlink) as (so & Hso & Hvso & Haso).
    rewrite (syncVideo_deactivates w i v o Hv Hlink Hon).
    rewrite (Deactivate_run w o so Hso). simpl. rewrite Hvso.
    assert (o < length (heap w))%nat as Holt by by eapply lookup_lt_Some.
    split; [done|]. split; [|split; [done|split; [done|split]]].
    { split.
      - intros j vj r Hvj Hlj; simpl in Hvj |- *. destruct (decide (j = i)) as [->|Hne].
        + rewrite list_lookup_alter_eq, Hv in Hvj. simpl in Hvj.
          injection Hvj as <-. done.
        + rewrite list_lookup_alter_ne in Hvj by done.
          destruct (Hreg1 j vj r Hvj Hlj) as (s & Hs & Hvs & Has).
          exists s. rewrite list_lookup_insert_ne; [done|].
          intros ->. rewrite Hso in Hs. injection Hs as <-. congruence.
      - intros r s Hs Ha; simpl in Hs |- *. destruct (decide (o = r)) as [->|Hne].
        + rewrite list_lookup_insert_eq in Hs by done. injection Hs as <-. done.
        + rewrite list_lookup_insert_ne in Hs by done.
          destruct (Hreg2 r s Hs Ha) as (vs & Hvs & Hls).
          exists vs. rewrite list_lookup_alter_ne; [done|].
          intros Heq. rewrite <- Heq in Hvs. rewrite Hv in Hvs. congruence. }
    { by rewrite length_alter. }
    split; [by rewrite length_insert|]. split.
    { intros vi Hvi. simpl in Hvi. rewrite list_lookup_alter_eq, Hv in Hvi.
      injection Hvi as <-. unfold delay_on. simpl. fold (delay_on w).
      by rewrite Hon. }
    split; [intros j Hj; by rewrite list_lookup_alter_ne|]. split.
    { intros j Hj Hset vj Hvj. simpl in Hvj.
      rewrite list_lookup_alter_ne in Hvj by done. specialize (Hset vj Hvj).
      unfold delay_on in *. simpl. fold (delay_on w) in *. by rewrite Hon in *. }
    split; [|intros v0 Hv0 _ Hon'; congruence].
    intros r s Hs; simpl. destruct (decide (o = r)) as [->|Hne].
    + exists (deactivated s). rewrite list_lookup_insert_eq by done.
      rewrite Hso in Hs. injection Hs as <-. done.
    + exists s. by rewrite list_lookup_insert_ne.
  - (* nothing to do *)
    rewrite (syncVideo_skips w i v Hv Hlink Hon). simpl.
    split; [done|]. split; [done|]. do 4 (split; [done|]). split.
    { intros vi Hvi. rewrite Hv in Hvi. injection Hvi as <-. by rewrite Hon. }
    split; [done|]. split; [done|]. split; [|intros; congruence].
    intros r s Hs; simpl. by exists s.
Qed.

(** What one call of [updateSyncForVideos] does to a registry in order. *)
Lemma updateSyncForVideos_settles w :
  registry_ok w ->
  completion updateSyncForVideos w = Normal tt /\
  registry_ok (exec updateSyncForVideos w) /\
  currentFrameDelay (exec updateSyncForVideos w) = currentFrameDelay w /\
  isPaused (exec updateSyncForVideos w) = isPaused w /\
  length (videos (exec updateSyncForVideos w)) = length (videos w) /\
  (forall i, settled_at (exec updateSyncForVideos w) i) /\
  (forall r s, heap w !! r = Some s ->
     exists s', heap (exec updateSyncForVideos w) !! r = Some s' /\ same_ring s s') /\
  (forall i v, videos w !! i = Some v -> frameSyncObj v = None ->
     delay_on w = true ->
     exists r s,
       frameSyncObj <$> videos (exec updateSyncForVideos w) !! i = Some (Some r) /\
       (length (heap w) <= r)%nat /\
       heap (exec updateSyncForVideos w) !! r = Some s /\ default_ring s).
Proof.
  intros Hreg.
  set (K := fun (i : nat) (w' : World) =>
    registry_ok w' /\
    currentFrameDelay w' = currentFrameDelay w /\
    isPaused w' = isPaused w /\
    length (videos w') = length (videos w) /\
    (length (heap w) <= length (heap w'))%nat /\
    (forall j, (j < i)%nat -> settled_at w' j) /\
    (forall j, (i <= j)%nat -> videos w' !! j = videos w !! j) /\
    (forall r s, heap w !! r = Some s ->
       exists s', heap w' !! r = Some s' /\ same_ring s s') /\
    (forall j v, (j < i)%nat -> videos w !! j = Some v -> frameSyncObj v = None ->
       delay_on w = true ->
       exists r s,
         frameSyncObj <$> videos w' !! j = Some (Some r) /\
         (length (heap w) <= r)%nat /\
         heap w' !! r = Some s /\ default_ring s)).
  destruct (forEach_seq_invariant K syncVideo (length (videos w))) with
    (k := length (videos w)) (i := 0%nat) (w := w) as [Hc HK].
  - intros i w' Hi (Hreg' & Hd & Hp & Hlen & Hheap & Hset & Hvid & Hring & Hnew).
    destruct (syncVideo_step w' i Hreg') as
      (Sc & Sreg & Sd & Sp & Slen & Sheap & Sset & Svid & Sset' & Sring & Snew);
      [lia|].
    assert (delay_on w' = delay_on w) as Hon by (unfold delay_on; by rewrite Hd, Hp).
    split; [done|]. unfold K.
    split; [done|]. split; [congruence|]. split; [congruence|].
    split; [congruence|]. split; [lia|]. split; [|split; [|split]].
    + intros j Hj. destruct (decide (j = i)) as [->|Hne]; [done|].
      apply Sset'; [done|]. apply Hset. lia.
    + intros j Hj. rewrite Svid by lia. apply Hvid. lia.
    + intros r s Hs. destruct (Hring r s Hs) as (s1 & Hs1 & Hr1).
      destruct (Sring r s1 Hs1) as (s2 & Hs2 & Hr2).
      exists s2. split; [done|]. by eapply same_ring_trans.
    + intros j v Hj Hv Hlink Hon'. destruct (decide (j = i)) as [->|Hne].
      * rewrite <- Hvid in Hv by lia.
        destruct (Snew v Hv Hlink ltac:(congruence)) as (r & s & H1 & H2 & H3 & H4).
        exists r, s. split; [done|]. split; [lia|done].
      * destruct (Hnew j v ltac:(lia) Hv Hlink Hon') as (r & s & H1 & H2 & H3 & H4).
        destruct (Sring r s H3) as (s2 & Hs2 & Hr2).
        exists r, s2. rewrite Svid by done. split; [done|]. split; [done|].
        split; [done|]. by eapply default_ring_same.
  - lia.
  - unfold K. split; [done|]. do 3 (split; [done|]). split; [done|].
    split; [intros j Hj; lia|]. split; [done|]. split.
    + intros r s Hs. by exists s.
    + intros j v Hj. lia.
  - unfold updateSyncForVideos, completion, exec in *.
    erewrite bind_Normal by reflexivity.
    destruct HK as (Hreg' & Hd & Hp & Hlen & _ & Hset & _ & Hring & Hnew).
    split; [done|]. split; [done|]. do 3 (split; [done|]). split; [|split; [done|]].
    + intros i. destruct (decide (i < length (videos w))%nat) as [Hi|Hi].
      * by apply Hset.
      * intros v Hv. apply lookup_lt_Some in Hv. lia.
    + intros i v Hv. apply Hnew; [by eapply lookup_lt_Some|done].
Qed.

(** A call of [updateSyncForVideos] on a page where every video is settled
    changes nothing. *)
Lemma updateSyncForVideos_settled w :
  (forall i, settled_at w i) -> updateSyncForVideos w = (Normal tt, w).
Proof.
  intros Hset. unfold updateSyncForVideos.
  erewrite bind_Normal by reflexivity.
  assert (forall k i, (i + k = length (videos w))%nat ->
            forEach (seq i k) syncVideo w = (Normal tt, w)) as Hloop.
  { induction k as [|k IH]; intros i Hik; simpl; [done|].
    destruct (lookup_lt_is_Some_2 (videos w) i) as [v Hv]; [lia|].
    specialize (Hset i v Hv).
    erewrite bind_Normal; [apply IH; lia|].
    destruct (delay_on w) eqn:Hon.
    - destruct Hset as (r & s & Hl & Hs & Hd).
      destruct (delay_on_true w Hon) as [Hpos Hp].
      rewrite (syncVideo_updates w i v r Hv Hl Hpos Hp).
      rewrite (alter_Some _ _ _ _ Hs).
      assert (set_frameDelayMs (currentFrameDelay w) s = s) as ->.
      { rewrite <- Hd. by destruct s. }
      by rewrite list_insert_id, set_heap_id.
    - by apply (syncVideo_skips w i v). }
  by apply Hloop.
Qed.

End Registry.

Section RegistryProperties.

Lemma registry_ok_config w d p :
  registry_ok w -> registry_ok (set_isPaused p (set_currentFrameDelay d w)).
Proof. done. Qed.

Lemma registry_ok_unlinked w :
  heap w = [] -> Forall (fun v => frameSyncObj v = None) (videos w) ->
  registry_ok w.
Proof.
  intros Hh Hall. split.
  - intros i v r Hv Hl. rewrite Forall_lookup in Hall.
    rewrite (Hall i v Hv) in Hl. done.
  - intros r s Hs. by rewrite Hh in Hs.
Qed.

(** X12.  Switching the delay on gives every video of the page a session.
    When the links are in order and the delay is positive and not paused,
    [updateSyncForVideos] completes normally, and afterwards every video
    carries an active session bound to it that has the configured delay.
    A video that had no session carries a new object with the default
    ring of 60 empty slots; every session that existed keeps its ring. *)
Theorem delay_on_gives_every_video_a_session (w : World) :
  registry_ok w ->
  delay_on w = true ->
  completion updateSyncForVideos w = Normal tt /\
  (forall i v, videos w !! i = Some v ->
     exists v' r s,
       videos (exec updateSyncForVideos w) !! i = Some v' /\
       frameSyncObj v' = Some r /\
       heap (exec updateSyncForVideos w) !! r = Some s /\
       video s = i /\ active s = true /\
       frameDelayMs s = currentFrameDelay w /\
       (frameSyncObj v = None -> (length (heap w) <= r)%nat /\ default_ring s)) /\
  (forall r s, heap w !! r = Some s ->
     exists s', heap (exec updateSyncForVideos w) !! r = Some s' /\ same_ring s s').
Proof.
  intros Hreg Hon.
  destruct (updateSyncForVideos_settles w Hreg)
    as (Hc & [Hreg1 _] & Hd & Hp & Hlen & Hset & Hring & Hnew).
  split; [done|]. split; [|done].
  intros i v Hv.
  destruct (lookup_lt_is_Some_2 (videos (exec updateSyncForVideos w)) i)
    as [v' Hv']; [rewrite Hlen; by eapply lookup_lt_Some|].
  specialize (Hset i v' Hv').
  assert (delay_on (exec updateSyncForVideos w) = true) as Hon'
    by (unfold delay_on in *; by rewrite Hd, Hp).
  rewrite Hon' in Hset. destruct Hset as (r & s & Hl & Hs & Hds).
  destruct (Hreg1 i v' r Hv' Hl) as (s0 & Hs0 & Hvs & Has).
  rewrite Hs in Hs0. injection Hs0 as <-.
  exists v', r, s. do 5 (split; [done|]). split; [congruence|].
  intros Hnone. destruct (Hnew i v Hv Hnone Hon) as (r' & s' & H1 & H2 & H3 & H4).
  rewrite Hv' in H1. simpl in H1. rewrite Hl in H1. injection H1 as <-.
  rewrite Hs in H3. injection H3 as <-. done.
Qed.

Lemma delay_on_gives_every_video_a_session_witness :
  exists v' r s,
    videos (exec updateSyncForVideos
              (set_currentFrameDelay 100 (page [playing_video; unsized_video])))
      !! 1%nat = Some v' /\
    frameSyncObj v' = Some r /\
    heap (exec updateSyncForVideos
            (set_currentFrameDelay 100 (page [playing_video; unsized_video])))
      !! r = Some s /\
    active s = true /\ frameDelayMs s = 100 /\ default_ring s.
Proof.
  assert (registry_ok (set_currentFrameDelay 100 (page [playing_video; unsized_video])))
    as Hreg.
  { split.
    - intros [|[|i]] v r Hv Hl; simpl in Hv; try discriminate;
        injection Hv as <-; discriminate.
    - intros r s Hs. destruct r; discriminate. }
  destruct (delay_on_gives_every_video_a_session _ Hreg eq_refl) as (_ & H & _).
  destruct (H 1%nat unsized_video eq_refl)
    as (v' & r & s & H1 & H2 & H3 & _ & H5 & H6 & H7).
  exists v', r, s. do 3 (split; [assumption|]). split; [assumption|].
  split; [exact H6|]. exact (proj2 (H7 eq_refl)).
Defined.

(** X13.  Switching the delay off leaves no session behind.  When the links
    are in order and the delay is 0 (or negative) or paused,
    [updateSyncForVideos] completes normally; afterwards no video carries a
    session and no object in the store is active, while every object keeps
    its ring. *)
Theorem delay_off_deactivates_every_session (w : World) :
  registry_ok w ->
  delay_on w = false ->
  completion updateSyncForVideos w = Normal tt /\
  (forall i v, videos (exec updateSyncForVideos w) !! i = Some v ->
     frameSyncObj v = None) /\
  (forall r s, heap (exec updateSyncForVideos w) !! r = Some s -> active s = false) /\
  (forall r s, heap w !! r = Some s ->
     exists s', heap (exec updateSyncForVideos w) !! r = Some s' /\ same_ring s s').
Proof.
  intros Hreg Hoff.
  destruct (updateSyncForVideos_settles w Hreg)
    as (Hc & [_ Hreg2] & Hd & Hp & Hlen & Hset & Hring & _).
  assert (delay_on (exec updateSyncForVideos w) = false) as Hoff'
    by (unfold delay_on in *; by rewrite Hd, Hp).
  assert (forall i v, videos (exec updateSyncForVideos w) !! i = Some v ->
            frameSyncObj v = None) as Hnone.
  { intros i v Hv. specialize (Hset i v Hv). by rewrite Hoff' in Hset. }
  split; [done|]. split; [done|]. split; [|done].
  intros r s Hs. destruct (active s) eqn:Ha; [|done].
  destruct (Hreg2 r s Hs Ha) as (v & Hv & Hl). rewrite (Hnone _ _ Hv) in Hl. done.
Qed.

Lemma delay_off_deactivates_every_session_witness :
  completion updateSyncForVideos (set_currentFrameDelay 0 synced_page) = Normal tt /\
  (forall r s,
     heap (exec updateSyncForVideos (set_currentFrameDelay 0 synced_page)) !! r
       = Some s -> active s = false).
Proof.
  assert (registry_ok (set_currentFrameDelay 0 synced_page)) as Hreg.
  { split.
    - intros [|[|i]] v r Hv Hl; simpl in Hv; try discriminate;
        injection Hv as <-; injection Hl as <-;
        eexists; (split; [reflexivity|split; reflexivity]).
    - intros [|[|r]] s Hs Ha; simpl in Hs; try discriminate;
        injection Hs as <-; eexists; (split; reflexivity). }
  destruct (delay_off_deactivates_every_session _ Hreg eq_refl) as (H1 & _ & H2 & _).
  split; [exact H1|exact H2].
Defined.

End RegistryProperties.

(** ** Repeated synchronisation and the observer of added nodes *)

Section Repetition.

(** Calls of a computation that settles after its first run. *)
Lemma repeated_calls (u : JS unit) w w1 :
  u w = (Normal tt, w1) -> u w1 = (Normal tt, w1) ->
  forall (c : nat),
    u (if c is O then w else w1) = (Normal tt, w1).
Proof. intros Hw Hw1 [|c]; done. Qed.

Lemma onMutations_run (u : JS unit) w w1 (mutations : list (list Node)) :
  u w = (Normal tt, w1) -> u w1 = (Normal tt, w1) ->
  forEach mutations (fun addedNodes =>
    forEach addedNodes (fun node =>
      match node with
      | video_node => u
      | element_node videos_below => forEach (seq 0 videos_below) (fun _ => u)
      | other_node => ret tt
      end)) w
  = (Normal tt, if sync_calls mutations is O then w else w1).
Proof.
  intros Hw Hw1.
  set (st := fun c : nat => if c is O then w else w1).
  assert (forall c, u (st c) = (Normal tt, st (S c))) as Hstep
    by (intros [|c]; done).
  assert (forall k i c,
    forEach (seq i k) (fun _ => u) (st c) = (Normal tt, st (c + k)%nat)) as Hrep.
  { induction k as [|k IH]; intros i c; simpl.
    - by rewrite Nat.add_0_r.
    - erewrite bind_Normal by apply Hstep. rewrite IH. do 2 f_equal. lia. }
  set (count := fun node => match node with
                            | video_node => 1%nat
                            | element_node videos_below => videos_below
                            | other_node => 0%nat
                            end).
  assert (forall nodes c,
    forEach nodes (fun node =>
      match node with
      | video_node => u
      | element_node videos_below => forEach (seq 0 videos_below) (fun _ => u)
      | other_node => ret tt
      end) (st c)
    = (Normal tt, st (c + sum_list (map count nodes))%nat)) as Hnodes.
  { induction nodes as [|node nodes IH]; intros c; simpl.
    - by rewrite Nat.add_0_r.
    - destruct node as [|k|]; simpl.
      + erewrite bind_Normal by apply Hstep. rewrite IH. do 2 f_equal. lia.
      + erewrite bind_Normal by apply Hrep. rewrite IH. do 2 f_equal. lia.
      + erewrite bind_Normal by reflexivity. by rewrite IH. }
  assert (forall ms c,
    forEach ms (fun addedNodes =>
      forEach addedNodes (fun node =>
        match node with
        | video_node => u
        | element_node videos_below => forEach (seq 0 videos_below) (fun _ => u)
        | other_node => ret tt
        end)) (st c)
    = (Normal tt,
       st (c + sum_list (map (fun nodes => sum_list (map count nodes)) ms))%nat))
    as Hms.
  { induction ms as [|nodes ms IH]; intros c; simpl.
    - by rewrite Nat.add_0_r.
    - erewrite bind_Normal by apply Hnodes. rewrite IH. do 2 f_equal. lia. }
  apply (Hms mutations 0%nat).
Qed.

(** X14.  Synchronising again changes nothing.  When the links are in
    order, a second [updateSyncForVideos] leaves the world exactly as the
    first left it, whatever the delay and the pause flag are; so the
    observer of added nodes, which calls it once per added video, has the
    effect of one call when the added nodes hold a video and no effect
    when they hold none. *)
Theorem repeated_synchronisation_changes_nothing
    (w : World) (mutations : list (list Node)) :
  registry_ok w ->
  (updateSyncForVideos ;; updateSyncForVideos) w = updateSyncForVideos w /\
  onMutations mutations w =
    (Normal tt,
     if sync_calls mutations is O then w else exec updateSyncForVideos w).
Proof.
  intros Hreg.
  destruct (updateSyncForVideos_settles w Hreg) as (Hc & _ & _ & _ & _ & Hset & _).
  pose proof (updateSyncForVideos_settled _ Hset) as Hagain.
  unfold completion, exec in *.
  destruct (updateSyncForVideos w) as [r w1] eqn:Hrun. simpl in *. subst r.
  split.
  - erewrite bind_Normal by exact Hrun. done.
  - unfold onMutations. by apply onMutations_run.
Qed.

Lemma repeated_synchronisation_changes_nothing_witness :
  sync_calls [[other_node; element_node 2]; [video_node]] = 3%nat /\
  onMutations [[other_node; element_node 2]; [video_node]]
    (set_currentFrameDelay 100 (page [playing_video; unsized_video]))
  = (Normal tt,
     if sync_calls [[other_node; element_node 2]; [video_node]] is O
     then set_currentFrameDelay 100 (page [playing_video; unsized_video])
     else exec updateSyncForVideos
            (set_currentFrameDelay 100 (page [playing_video; unsized_video]))).
Proof.
  assert (registry_ok (set_currentFrameDelay 100 (page [playing_video; unsized_video])))
    as Hreg.
  { split.
    - intros [|[|i]] v r Hv Hl; simpl in Hv; try discriminate;
        injection Hv as <-; discriminate.
    - intros r s Hs. destruct r; discriminate. }
  split; [reflexivity|].
  exact (proj2 (repeated_synchronisation_changes_nothing _
    [[other_node; element_node 2]; [video_node]] Hreg)).
Defined.

(** X15.  With the delay off the script leaves a page without sessions
    alone: when no video carries a session and the stored delay is missing,
    unparsable, 0 or negative, or the pause flag is set, [initialize] only
    records the configuration; it builds no object, links nothing, writes
    nothing to the console and schedules no callback. *)
Theorem initialize_with_delay_off_does_nothing
    (w : World) (frameDelay : option Z) (pauseDelay : bool) :
  Forall (fun v => frameSyncObj v = None) (videos w) ->
  parseInt_or_0 frameDelay <= 0 \/ pauseDelay = true ->
  initialize frameDelay pauseDelay w =
    (Normal tt,
     set_isPaused pauseDelay (set_currentFrameDelay (parseInt_or_0 frameDelay) w)).
Proof.
  intros Hall Hoff. unfold initialize.
  erewrite bind_Normal by reflexivity.
  erewrite bind_Normal by reflexivity.
  rewrite orb_false_r. apply updateSyncForVideos_settled.
  intros i v Hv. simpl in Hv. rewrite Forall_lookup in Hall.
  assert (delay_on (set_isPaused pauseDelay
            (set_currentFrameDelay (parseInt_or_0 frameDelay) w)) = false) as ->.
  { unfold delay_on. simpl. destruct Hoff as [Hle| ->].
    - destruct (Z.ltb_spec 0 (parseInt_or_0 frameDelay)); [lia|done].
    - by rewrite andb_false_r. }
  by eapply Hall.
Qed.

Lemma initialize_with_delay_off_does_nothing_witness :
  initialize None false (page [playing_video; unsized_video]) =
    (Normal tt, page [playing_video; unsized_video]).
Proof.
  refine (initialize_with_delay_off_does_nothing
    (page [playing_video; unsized_video]) None false _ _).
  - repeat constructor.
  - left. simpl. lia.
Defined.

End Repetition.

(** ** The registry over the life of a page *)

Section PageLife.

Lemma onChanged_sync changes w :
  onChanged changes sync w =
    updateSyncForVideos
      (set_isPaused (paused_after changes w)
         (set_currentFrameDelay (delay_after changes w) w)).
Proof.
  unfold onChanged, delay_after, paused_after.
  destruct (frameDelay changes) as [nv|], (pauseDelay changes) as [np|];
    unfold bind, modify, ret; simpl; f_equal; by destruct w.
Qed.

Lemma handle_keeps_registry e w :
  registry_ok w ->
  completion (handle e) w = Normal tt /\ registry_ok (exec (handle e) w).
Proof.
  intros Hreg. destruct e as [changes area|mutations|wd ht p pic]; simpl handle.
  - destruct area; [|done..].
    unfold completion, exec. rewrite onChanged_sync.
    destruct (updateSyncForVideos_settles
                (set_isPaused (paused_after changes w)
                   (set_currentFrameDelay (delay_after changes w) w)))
      as (Hc & Hreg' & _); [by apply registry_ok_config|done].
  - destruct (updateSyncForVideos_settles w Hreg)
      as (Hc & Hreg' & _ & _ & _ & Hset & _).
    pose proof (updateSyncForVideos_settled _ Hset) as Hagain.
    unfold completion, exec in *.
    destruct (updateSyncForVideos w) as [r w1] eqn:Hrun. simpl in *. subst r.
    unfold onMutations. rewrite (onMutations_run _ w w1 mutations Hrun Hagain).
    simpl. split; [done|]. by destruct (sync_calls mutations).
  - unfold completion, exec, modify. simpl. split; [done|].
    destruct Hreg as [Hreg1 Hreg2]. split.
    + intros i v r Hv Hl. simpl in Hv |- *.
      apply lookup_app_Some in Hv as [Hv|[_ Hv]]; [by eapply Hreg1|].
      apply list_lookup_singleton_Some in Hv as [_ <-]. done.
    + intros r s Hs Ha. simpl in Hs |- *.
      destruct (Hreg2 r s Hs Ha) as (v & Hv & Hl).
      exists v. by rewrite lookup_app_l by by eapply lookup_lt_Some.
Qed.

(** X16.  At most one active session per video, over the whole life of a
    page.  Starting from a page whose videos carry no session, after
    [initialize] with any stored configuration and any sequence of storage
    changes, batches of added nodes and newly appearing videos, every
    handler has completed normally, every active session is the one its
    video links to, and two active sessions are never bound to the same
    video. *)
Theorem at_most_one_active_session_per_video
    (vs : list Video) (frameDelay : option Z) (pauseDelay : bool)
    (events : list Event) :
  Forall (fun v => frameSyncObj v = None) vs ->
  completion (initialize frameDelay pauseDelay ;; forEach events handle) (page vs)
    = Normal tt /\
  registry_ok
    (exec (initialize frameDelay pauseDelay ;; forEach events handle) (page vs)) /\
  (forall r1 r2 s1 s2,
     heap (exec (initialize frameDelay pauseDelay ;; forEach events handle) (page vs))
       !! r1 = Some s1 ->
     heap (exec (initialize frameDelay pauseDelay ;; forEach events handle) (page vs))
       !! r2 = Some s2 ->
     active s1 = true -> active s2 = true -> video s1 = video s2 -> r1 = r2).
Proof.
  intros Hall.
  assert (registry_ok (page vs)) as Hreg0 by by apply registry_ok_unlinked.
  destruct (updateSyncForVideos_settles
              (set_isPaused (pauseDelay || false)
                 (set_currentFrameDelay (parseInt_or_0 frameDelay) (page vs))))
    as (Hc & Hreg1 & _); [by apply registry_ok_config|].
  unfold completion, exec in *.
  assert (initialize frameDelay pauseDelay (page vs)
          = updateSyncForVideos
              (set_isPaused (pauseDelay || false)
                 (set_currentFrameDelay (parseInt_or_0 frameDelay) (page vs))))
    as Hinit by done.
  destruct (updateSyncForVideos _) as [r w1] eqn:Hrun. simpl in Hc, Hreg1. subst r.
  erewrite bind_Normal by exact Hinit.
  destruct (forEach_keeps registry_ok handle events
              (fun e w => handle_keeps_registry e w) w1 Hreg1) as [Hc' Hreg'].
  unfold completion, exec in *.
  split; [done|]. split; [done|].
  intros r1 r2 s1 s2 Hs1 Hs2 Ha1 Ha2 Hvid.
  destruct Hreg' as [_ Hreg2].
  destruct (Hreg2 r1 s1 Hs1 Ha1) as (v1 & Hv1 & Hl1).
  destruct (Hreg2 r2 s2 Hs2 Ha2) as (v2 & Hv2 & Hl2).
  rewrite Hvid in Hv1. congruence.
Qed.

Lemma at_most_one_active_session_per_video_witness :
  completion
    (initialize (Some 100) false ;;
     forEach [storage_changed (mkChanges (Some (Some 0)) None) sync;
              video_appears 320 200 false 7;
              nodes_added [[video_node]];
              storage_changed (mkChanges (Some (Some 250)) (Some false)) sync;
              nodes_added [[element_node 2; other_node]]] handle)
    (page [playing_video; unsized_video]) = Normal tt.
Proof.
  refine (proj1 (at_most_one_active_session_per_video
    [playing_video; unsized_video] (Some 100) false _ _)).
  repeat constructor.
Defined.

End PageLife.

(** ** Visibility and the timestamp 0 *)

Section Edges.

(** X17.  A hidden document stops capturing but not playback.  While
    [document.hidden] holds, a capture cycle of any session only schedules
    itself again; a playback cycle does not look at the visibility at all:
    it does in the hidden document exactly what it does in the visible
    one. *)
Theorem hidden_document_stops_capture_not_playback
    (this : ref) (w : World) (s : FrameSync) (v : Video) (now : Z) (h : bool) :
  heap w !! this = Some s ->
  videos w !! video s = Some v ->
  _captureFrame this now (set_hidden true w) =
    (Normal tt,
     set_animationFrames (animationFrames w ++ [captureFrameFunc this])
       (set_hidden true w)) /\
  _drawFrame this now (set_hidden h w) =
    (completion (_drawFrame this now) w, set_hidden h (exec (_drawFrame this now) w)).
Proof.
  intros Hs Hv. split.
  - erewrite _captureFrame_gated; [done|exact Hs|exact Hv|].
    simpl. by rewrite orb_true_r.
  - unfold completion, exec. destruct (negb (active s) || paused v) eqn:Hg.
    + erewrite !_drawFrame_gated by done. done.
    + apply orb_false_elim in Hg as [Ha Hp]. apply negb_false_iff in Ha.
      erewrite !_drawFrame_run by done. done.
Qed.

Lemma hidden_document_stops_capture_not_playback_witness :
  _captureFrame 0%nat 160 (set_hidden true selection_scenario) =
    (Normal tt,
     set_animationFrames
       (animationFrames selection_scenario ++ [captureFrameFunc 0%nat])
       (set_hidden true selection_scenario)).
Proof.
  exact (proj1 (hidden_document_stops_capture_not_playback 0%nat
    selection_scenario (session_of selection_scenario 0%nat)
    (set_frameSyncObj (Some 0%nat) playing_video) 160 true eq_refl eq_refl)).
Defined.

Lemma _findBestFrameToShow_none buffer targetTs :
  Forall (fun f => captureTs f = 0) buffer ->
  _findBestFrameToShow buffer targetTs = -1.
Proof.
  intros Hall.
  destruct (_findBestFrameToShow_selects targetTs buffer)
    as [[Hr _]|(_ & f & Hf & Hne & _)]; [done|].
  rewrite Forall_lookup in Hall. by specialize (Hall _ _ Hf).
Qed.

(** X18.  The timestamp 0 is taken for "empty".  A capture cycle at
    [now] = 0 on a ring whose slots are all empty stores the picture and
    advances [frameCount], but the slot keeps timestamp 0, so for every
    target the selection still answers -1 and a playback cycle draws
    nothing. *)
Theorem capture_at_timestamp_0_is_never_shown
    (this : ref) (w : World) (v : Video) (C : Z) (s : FrameSync) :
  capturing w this v C s ->
  0 < C ->
  Forall (fun f => captureTs f = 0) (buffer s) ->
  completion (_captureFrame this 0) w = Normal tt /\
  exists s',
    heap (exec (_captureFrame this 0) w) !! this = Some s' /\
    frameCount s' = frameCount s + 1 /\
    frame_image <$> buffer s' !! Z.to_nat (frameCount s mod C)
      = Some (Some (picture v)) /\
    (forall targetTs, _findBestFrameToShow (buffer s') targetTs = -1) /\
    (forall now,
       lastDrawnFrameIndex <$>
         heap (exec (_captureFrame this 0 ;; _drawFrame this now) w) !! this
       = Some (lastDrawnFrameIndex s)).
Proof.
  intros Hc HC Hempty.
  destruct (capturing_slot this w v C s Hc HC) as (Hnext & slot & Hslot & _ & _).
  destruct (capturing_step this w v C s 0 Hc HC) as (Hn & Hs' & Hc').
  assert (Forall (fun f => captureTs f = 0) (buffer (captured v 0 s))) as Hempty'.
  { unfold captured. simpl. rewrite Forall_lookup in Hempty |- *.
    intros j f Hf. rewrite list_lookup_alter in Hf. case_decide.
    - destruct (buffer s !! _) as [g|] eqn:Hg in Hf; simpl in Hf; [|done].
      injection Hf as <-. destruct (CaptureFrame_ts v 0 g) as [->| ->]; [done|].
      by eapply Hempty.
    - by eapply Hempty. }
  split; [done|]. exists (captured v 0 s). split; [done|]. split; [done|].
  split; [|split].
  - unfold captured. simpl. rewrite Hnext. simpl.
    rewrite list_lookup_alter_eq, Hslot. simpl. unfold CaptureFrame.
    destruct Hc.
    destruct (Z.ltb_spec 0 (videoWidth v)); [|lia].
    destruct (Z.ltb_spec 0 (videoHeight v)); [|lia]. done.
  - intros targetTs. by apply _findBestFrameToShow_none.
  - intros now. unfold completion, exec in *.
    destruct (_captureFrame this 0 w) as [r w1] eqn:Hrun. simpl in *. subst r.
    erewrite bind_Normal by exact Hrun.
    destruct Hc' as [Hh Hv Ha Hp _ _ _ _ _ _ _].
    erewrite _drawFrame_run by done. simpl.
    rewrite list_lookup_insert_eq by by eapply lookup_lt_Some.
    simpl. f_equal. unfold drawn, render_candidate.
    rewrite (_findBestFrameToShow_none _ _ Hempty'). done.
Qed.

Lemma capture_at_timestamp_0_is_never_shown_witness :
  exists s',
    heap (exec (_captureFrame 0%nat 0) activated_world) !! 0%nat = Some s' /\
    frameCount s' = 1 /\
    frame_image <$> buffer s' !! 0%nat = Some (Some 1) /\
    _findBestFrameToShow (buffer s') 0 = -1.
Proof.
  assert (capturing activated_world 0%nat activated_video 4 activated_session)
    as Hc by (constructor; try reflexivity; repeat constructor).
  destruct (capture_at_timestamp_0_is_never_shown 0%nat activated_world
              activated_video 4 activated_session Hc)
    as (_ & s' & H1 & H2 & H3 & H4 & _).
  - lia.
  - repeat constructor.
  - exists s'. split; [exact H1|]. split; [exact H2|]. split; [exact H3|].
    exact (H4 0).
Defined.

End Edges.
